(** * server.js: webhook authentication, reload debouncing, SSE fan-out and
      Notion record normalisation

    A shallow embedding of [src/server.js].

    - JavaScript strings are [string]s whose characters are UTF-16 code
      units in the range U+0000..U+00FF: the range of an HTTP header value
      as Node decodes it (Latin-1) and of ASCII JSON text.  Byte buffers are
      [list Z] with entries in [0, 256).
    - JSON numbers are the integers.
    - The module-level variables [sseClients] and [reloadTimer], the pending
      timeouts of the runtime, the clock and the console are fields of one
      [Server] record that every route threads through; a computation either
      completes normally or raises.
    - [createHmac] is SHA-256 and HMAC written out, checked below against
      the published test vectors.
    - The external store behind [notion.databases.query] is a function from
      the query to a page of results or a rejection. *)

From Stdlib Require Import ZArith List String Ascii Bool Lia DecimalString.
From stdpp Require Import base option list gmap strings.

Import ListNotations.
Local Open Scope string_scope.
Local Open Scope list_scope.
Local Open Scope Z_scope.

(* ================================================================== *)
(** ** Strings and buffers *)
(* ================================================================== *)

Abbreviation Buffer := (list Z).

Definition code (c : ascii) : Z := Z.of_N (N_of_ascii c).

Definition chars (s : string) : list ascii := list_ascii_of_string s.

(** [s.length]: the number of UTF-16 code units. *)
Definition str_length (s : string) : nat := String.length s.

(** UTF-8 encoding of one code unit below U+0100. *)
Definition utf8_unit (c : ascii) : Buffer :=
  let n := code c in
  if n <? 128 then [n]
  else [Z.lor 192 (Z.shiftr n 6); Z.lor 128 (Z.land n 63)].

(** [Buffer.from(s)] (default encoding utf8); also what [hmac.update(s)]
    feeds to the hash. *)
Fixpoint Buffer_from (s : string) : Buffer :=
  match s with
  | EmptyString => []
  | String c s' => utf8_unit c ++ Buffer_from s'
  end.

Definition hex_digit (n : Z) : ascii :=
  ascii_of_N (Z.to_N (if n <? 10 then 48 + n else 87 + n)).

Fixpoint hex (bs : Buffer) : string :=
  match bs with
  | [] => EmptyString
  | b :: bs' => String (hex_digit (Z.shiftr b 4)) (String (hex_digit (Z.land b 15)) (hex bs'))
  end.

(* ================================================================== *)
(** ** SHA-256 and HMAC (node:crypto [createHmac('sha256', key)]) *)
(* ================================================================== *)

Module SHA256.

Definition w32 (x : Z) : Z := x mod 2 ^ 32.
Definition add32 (x y : Z) : Z := w32 (x + y).
Definition rotr (n x : Z) : Z := Z.lor (Z.shiftr x n) (w32 (Z.shiftl x (32 - n))).
Definition not32 (x : Z) : Z := Z.lxor x 4294967295.

Definition Ch (x y z : Z) : Z := Z.lxor (Z.land x y) (Z.land (not32 x) z).
Definition Maj (x y z : Z) : Z := Z.lxor (Z.lxor (Z.land x y) (Z.land x z)) (Z.land y z).
Definition bsig0 (x : Z) : Z := Z.lxor (Z.lxor (rotr 2 x) (rotr 13 x)) (rotr 22 x).
Definition bsig1 (x : Z) : Z := Z.lxor (Z.lxor (rotr 6 x) (rotr 11 x)) (rotr 25 x).
Definition ssig0 (x : Z) : Z := Z.lxor (Z.lxor (rotr 7 x) (rotr 18 x)) (Z.shiftr x 3).
Definition ssig1 (x : Z) : Z := Z.lxor (Z.lxor (rotr 17 x) (rotr 19 x)) (Z.shiftr x 10).

(** The largest [r] below [2 ^ n] with [r ^ k <= x], bit by bit. *)
Fixpoint root_bits (k : Z) (n : nat) (x r : Z) : Z :=
  match n with
  | O => r
  | S n' =>
      let r' := r + 2 ^ Z.of_nat n' in
      root_bits k n' x (if r' ^ k <=? x then r' else r)
  end.

Definition primes : list Z :=
  [2; 3; 5; 7; 11; 13; 17; 19; 23; 29; 31; 37; 41; 43; 47; 53; 59; 61; 67; 71; 73; 79;
   83; 89; 97; 101; 103; 107; 109; 113; 127; 131; 137; 139; 149; 151; 157; 163; 167;
   173; 179; 181; 191; 193; 197; 199; 211; 223; 227; 229; 233; 239; 241; 251; 257;
   263; 269; 271; 277; 281; 283; 293; 307; 311].

(** Round constants: the first 32 bits of the fractional parts of the cube
    roots of the first 64 primes. *)
Definition K : list Z :=
  Eval vm_compute in map (fun p => w32 (root_bits 3 36 (p * 2 ^ 96) 0)) primes.

(** The eight working words. *)
Record state := State
  { wa : Z; wb : Z; wc : Z; wd : Z; we : Z; wf : Z; wg : Z; wh : Z }.

Definition init_word (i : nat) : Z :=
  w32 (root_bits 2 36 (nth i primes 0 * 2 ^ 64) 0).

(** Initial hash value: the first 32 bits of the fractional parts of the
    square roots of the first 8 primes. *)
Definition init : state :=
  Eval vm_compute in
    State (init_word 0) (init_word 1) (init_word 2) (init_word 3)
          (init_word 4) (init_word 5) (init_word 6) (init_word 7).

(** Padding: 0x80, zeros up to 56 mod 64, then the bit length on 8 bytes. *)
Definition be_bytes (n : nat) (x : Z) : Buffer :=
  map (fun i => Z.land (Z.shiftr x (8 * Z.of_nat i)) 255) (rev (seq 0 n)).

Definition pad (msg : Buffer) : Buffer :=
  let len := Z.of_nat (length msg) in
  msg ++ [128] ++ repeat 0 (Z.to_nat ((55 - len) mod 64)) ++ be_bytes 8 (8 * len).

Fixpoint words (n : nat) (bs : Buffer) : list Z :=
  match n, bs with
  | S n', b0 :: b1 :: b2 :: b3 :: bs' =>
      (Z.shiftl b0 24 + Z.shiftl b1 16 + Z.shiftl b2 8 + b3) :: words n' bs'
  | _, _ => []
  end.

(** Message schedule, most recent word first. *)
Fixpoint extend (n : nat) (ws : list Z) : list Z :=
  match n with
  | O => ws
  | S n' =>
      let w := add32 (add32 (ssig1 (nth 1 ws 0)) (nth 6 ws 0))
                     (add32 (ssig0 (nth 14 ws 0)) (nth 15 ws 0)) in
      extend n' (w :: ws)
  end.

Definition schedule (block : Buffer) : list Z :=
  rev (extend 48 (rev (words 16 block))).

Definition round (s : state) (kw : Z * Z) : state :=
  let t1 := add32 (add32 (add32 (wh s) (bsig1 (we s))) (Ch (we s) (wf s) (wg s)))
                  (add32 (fst kw) (snd kw)) in
  let t2 := add32 (bsig0 (wa s)) (Maj (wa s) (wb s) (wc s)) in
  State (add32 t1 t2) (wa s) (wb s) (wc s) (add32 (wd s) t1) (we s) (wf s) (wg s).

Definition compress (h : state) (block : Buffer) : state :=
  let s := fold_left round (combine K (schedule block)) h in
  State (add32 (wa h) (wa s)) (add32 (wb h) (wb s)) (add32 (wc h) (wc s))
        (add32 (wd h) (wd s)) (add32 (we h) (we s)) (add32 (wf h) (wf s))
        (add32 (wg h) (wg s)) (add32 (wh h) (wh s)).

Fixpoint blocks (n : nat) (h : state) (bs : Buffer) : state :=
  match n with
  | O => h
  | S n' => blocks n' (compress h (firstn 64 bs)) (skipn 64 bs)
  end.

Definition digest_bytes (h : state) : Buffer :=
  flat_map (be_bytes 4) [wa h; wb h; wc h; wd h; we h; wf h; wg h; wh h].

Definition sha256 (msg : Buffer) : Buffer :=
  let p := pad msg in
  digest_bytes (blocks (length p / 64) init p).

(** HMAC with the 64-byte block of SHA-256. *)
Definition hmac_key (key : Buffer) : Buffer :=
  let k := if (64 <? length key)%nat then sha256 key else key in
  k ++ repeat 0 (64 - length k)%nat.

Definition hmac (key msg : Buffer) : Buffer :=
  let k := hmac_key key in
  sha256 (map (Z.lxor 0x5c) k ++ sha256 (map (Z.lxor 0x36) k ++ msg)).

End SHA256.

(** [createHmac('sha256', key).update(data).digest('hex')]. *)
Definition hmac_sha256_hex (key data : string) : string :=
  hex (SHA256.hmac (Buffer_from key) (Buffer_from data)).

(* ================================================================== *)
(** ** JSON values, [JSON.stringify] and the [express.json()] body parser *)
(* ================================================================== *)

(** Numbers are the integers; an object lists its own properties in the
    order JavaScript enumerates them. *)
#[warnings="-register-all"]
Inductive json : Type :=
  | JNull
  | JBool (b : bool)
  | JNum (n : Z)
  | JStr (s : string)
  | JArr (elems : list json)
  | JObj (props : list (string * json)).

Definition str_truthy (s : string) : bool :=
  match s with EmptyString => false | _ => true end.

(** ToBoolean. *)
Definition truthy (j : json) : bool :=
  match j with
  | JNull => false
  | JBool b => b
  | JNum n => negb (n =? 0)
  | JStr s => str_truthy s
  | JArr _ | JObj _ => true
  end.

Fixpoint assoc {A} (k : string) (l : list (string * A)) : option A :=
  match l with
  | [] => None
  | (k', v) :: l' => if String.eqb k k' then Some v else assoc k l'
  end.

(** [j.k] for a name [k] that no prototype defines: [None] is [undefined]. *)
Definition member (j : json) (k : string) : option json :=
  match j with
  | JObj props => assoc k props
  | _ => None
  end.

Definition opt_truthy (o : option json) : bool :=
  match o with Some j => truthy j | None => false end.

Fixpoint join (sep : string) (l : list string) : string :=
  match l with
  | [] => ""
  | [x] => x
  | x :: l' => x +:+ sep +:+ join sep l'
  end.

Definition str1 (c : ascii) : string := String c EmptyString.

(** QuoteJSONString on one code unit. *)
Definition escape_unit (c : ascii) : string :=
  let n := code c in
  if n =? 8 then "\b" else if n =? 9 then "\t" else if n =? 10 then "\n"
  else if n =? 12 then "\f" else if n =? 13 then "\r"
  else if n =? 34 then String "\" (str1 c) else if n =? 92 then "\\"
  else if n <? 32 then "\u00" +:+ hex [n]
  else str1 c.

Fixpoint escape (s : string) : string :=
  match s with
  | EmptyString => ""
  | String c s' => escape_unit c +:+ escape s'
  end.

Definition dquote : string := str1 (ascii_of_N 34).

Definition quote (s : string) : string := dquote +:+ escape s +:+ dquote.

Definition number_to_string (n : Z) : string := NilZero.string_of_int (Z.to_int n).

(** [JSON.stringify(j)] without indentation. *)
Fixpoint stringify (j : json) : string :=
  match j with
  | JNull => "null"
  | JBool true => "true"
  | JBool false => "false"
  | JNum n => number_to_string n
  | JStr s => quote s
  | JArr elems => "[" +:+ join "," (map stringify elems) +:+ "]"
  | JObj props =>
      "{" +:+ join "," (map (fun kv => quote (fst kv) +:+ ":" +:+ stringify (snd kv)) props)
          +:+ "}"
  end.

(** *** Property order of an object under construction *)

Definition digit_val (c : ascii) : option Z :=
  let n := code c in if (48 <=? n) && (n <=? 57) then Some (n - 48) else None.

Fixpoint digits_val (acc : Z) (l : list ascii) : option Z :=
  match l with
  | [] => Some acc
  | c :: l' => match digit_val c with
               | Some d => digits_val (10 * acc + d) l'
               | None => None
               end
  end.

(** A canonical array index: decimal, no leading zero, at most 2^32 - 2. *)
Definition array_index (k : string) : option Z :=
  match chars k with
  | [] => None
  | c :: l =>
      if (code c =? 48) && negb (match l with [] => true | _ => false end) then None
      else match digits_val 0 (c :: l) with
           | Some n => if n <=? 4294967294 then Some n else None
           | None => None
           end
  end.

Fixpoint replace_prop (k : string) (v : json) (o : list (string * json))
  : option (list (string * json)) :=
  match o with
  | [] => None
  | (k', v') :: o' =>
      if String.eqb k k' then Some ((k', v) :: o')
      else match replace_prop k v o' with
           | Some r => Some ((k', v') :: r)
           | None => None
           end
  end.

Fixpoint insert_index (i : Z) (k : string) (v : json) (o : list (string * json))
  : list (string * json) :=
  match o with
  | [] => [(k, v)]
  | (k', v') :: o' =>
      match array_index k' with
      | Some i' => if i' <? i then (k', v') :: insert_index i k v o'
                   else (k, v) :: o
      | None => (k, v) :: o
      end
  end.

(** CreateDataProperty: an existing key keeps its place, a new index key
    goes among the index keys in ascending order, any other new key last. *)
Definition obj_set (k : string) (v : json) (o : list (string * json))
  : list (string * json) :=
  match replace_prop k v o with
  | Some o' => o'
  | None => match array_index k with
            | Some i => insert_index i k v o
            | None => o ++ [(k, v)]
            end
  end.

(** *** [JSON.parse] on ASCII text with integer numbers *)

Definition is_ws (c : ascii) : bool :=
  let n := code c in (n =? 32) || (n =? 9) || (n =? 10) || (n =? 13).

Fixpoint skip_ws (l : list ascii) : list ascii :=
  match l with
  | c :: l' => if is_ws c then skip_ws l' else l
  | [] => []
  end.

Definition hex_val (c : ascii) : option Z :=
  let n := code c in
  if (48 <=? n) && (n <=? 57) then Some (n - 48)
  else if (97 <=? n) && (n <=? 102) then Some (n - 87)
  else if (65 <=? n) && (n <=? 70) then Some (n - 55)
  else None.

Definition unit_of (n : Z) : ascii := ascii_of_N (Z.to_N n).

(** The characters after an opening quote, up to the closing one.  Text
    outside the model (a byte above 0x7F, an escape above U+00FF) is
    refused. *)
Fixpoint parse_chars (l : list ascii) : option (string * list ascii) :=
  match l with
  | [] => None
  | c :: r =>
      let n := code c in
      if n =? 34 then Some (EmptyString, r)
      else if n =? 92 then
        match r with
        | e :: r' =>
            let simple (x : Z) :=
              match parse_chars r' with
              | Some (s, rest) => Some (String (unit_of x) s, rest)
              | None => None
              end in
            let m := code e in
            if m =? 34 then simple 34 else if m =? 92 then simple 92
            else if m =? 47 then simple 47 else if m =? 98 then simple 8
            else if m =? 102 then simple 12 else if m =? 110 then simple 10
            else if m =? 114 then simple 13 else if m =? 116 then simple 9
            else if m =? 117 then
              match r' with
              | h1 :: h2 :: h3 :: h4 :: r'' =>
                  match hex_val h1, hex_val h2, hex_val h3, hex_val h4 with
                  | Some 0, Some 0, Some d3, Some d4 =>
                      match parse_chars r'' with
                      | Some (s, rest) => Some (String (unit_of (16 * d3 + d4)) s, rest)
                      | None => None
                      end
                  | _, _, _, _ => None
                  end
              | _ => None
              end
            else None
        | [] => None
        end
      else if (n <? 32) || (127 <? n) then None
      else match parse_chars r with
           | Some (s, rest) => Some (String c s, rest)
           | None => None
           end
  end.

Fixpoint parse_digits (acc : Z) (l : list ascii) : Z * list ascii :=
  match l with
  | c :: l' => match digit_val c with
               | Some d => parse_digits (10 * acc + d) l'
               | None => (acc, l)
               end
  | [] => (acc, [])
  end.

(** An integer literal; a fraction or an exponent is outside the model. *)
Definition parse_int (l : list ascii) : option (Z * list ascii) :=
  match l with
  | c :: l' =>
      match digit_val c with
      | Some d =>
          let '(n, rest) := if d =? 0 then (0, l') else parse_digits d l' in
          match rest with
          | c' :: _ =>
              let m := code c' in
              if (m =? 46) || (m =? 101) || (m =? 69) then None else Some (n, rest)
          | [] => Some (n, rest)
          end
      | None => None
      end
  | [] => None
  end.

Fixpoint parse_value (fuel : nat) (l : list ascii) : option (json * list ascii) :=
  match fuel with
  | O => None
  | S fuel' =>
      match skip_ws l with
      | [] => None
      | c :: r =>
          let n := code c in
          if n =? 123 then
            match skip_ws r with
            | c' :: r' => if code c' =? 125 then Some (JObj [], r')
                          else parse_members fuel' [] r
            | [] => None
            end
          else if n =? 91 then
            match skip_ws r with
            | c' :: r' => if code c' =? 93 then Some (JArr [], r')
                          else parse_elements fuel' [] r
            | [] => None
            end
          else if n =? 34 then
            match parse_chars r with
            | Some (s, rest) => Some (JStr s, rest)
            | None => None
            end
          else if n =? 45 then
            match parse_int r with
            | Some (k, rest) => Some (JNum (- k), rest)
            | None => None
            end
          else match c :: r with
               | "t" :: "r" :: "u" :: "e" :: rest => Some (JBool true, rest)
               | "f" :: "a" :: "l" :: "s" :: "e" :: rest => Some (JBool false, rest)
               | "n" :: "u" :: "l" :: "l" :: rest => Some (JNull, rest)
               | _ => match parse_int (c :: r) with
                      | Some (k, rest) => Some (JNum k, rest)
                      | None => None
                      end
               end%char
      end
  end
with parse_elements (fuel : nat) (acc : list json) (l : list ascii)
  : option (json * list ascii) :=
  match fuel with
  | O => None
  | S fuel' =>
      match parse_value fuel' l with
      | Some (v, rest) =>
          match skip_ws rest with
          | c :: r => if code c =? 44 then parse_elements fuel' (acc ++ [v]) r
                      else if code c =? 93 then Some (JArr (acc ++ [v]), r)
                      else None
          | [] => None
          end
      | None => None
      end
  end
with parse_members (fuel : nat) (acc : list (string * json)) (l : list ascii)
  : option (json * list ascii) :=
  match fuel with
  | O => None
  | S fuel' =>
      match skip_ws l with
      | q :: r =>
          if code q =? 34 then
            match parse_chars r with
            | Some (k, rest) =>
                match skip_ws rest with
                | c :: r' =>
                    if code c =? 58 then
                      match parse_value fuel' r' with
                      | Some (v, rest') =>
                          match skip_ws rest' with
                          | d :: r'' =>
                              if code d =? 44 then parse_members fuel' (obj_set k v acc) r''
                              else if code d =? 125 then Some (JObj (obj_set k v acc), r'')
                              else None
                          | [] => None
                          end
                      | None => None
                      end
                    else None
                | [] => None
                end
            | None => None
            end
          else None
      | [] => None
      end
  end.

(** [JSON.parse(text)]: one value, then only white space. *)
Definition JSON_parse (text : string) : option json :=
  let l := chars text in
  match parse_value (S (length l)) l with
  | Some (v, rest) => match skip_ws rest with [] => Some v | _ => None end
  | None => None
  end.

(** [express.json()] in its default strict mode: an empty body gives [{}],
    a body must open with a brace or a bracket, and a body that does not
    parse never reaches the route ([None]). *)
Definition express_json (raw : string) : option json :=
  match chars raw with
  | [] => Some (JObj [])
  | l => match skip_ws l with
         | c :: _ => if (code c =? 123) || (code c =? 91) then JSON_parse raw else None
         | [] => None
         end
  end.

(* ================================================================== *)
(** ** The server: module-level state and the effects of the runtime *)
(* ================================================================== *)

(** A thrown value; only its [message] is ever read. *)
Record Exn := { message : string }.

Inductive completion (A : Type) : Type :=
  | Normal (a : A)
  | Throw (e : Exn).
Arguments Normal {A} a.
Arguments Throw {A} e.

(** How a response stream reacts to [res.write(chunk)]: it takes the chunk,
    it discards it (a closed connection: [write] returns false), or the call
    raises. *)
Inductive Sink := Writable | Dropping | Throwing.

Record Stream := {
  sink : Sink;
  sent_headers : list (string * string);
  written : list string
}.

Inductive Level := LogLevel | WarnLevel | ErrorLevel.

(** [sseClients] is a JavaScript [Set] of response objects: the handles in
    insertion order, the objects themselves in [streams].  [timers] are the
    pending timeouts of the runtime (handle, due time); their callback is
    always the reload broadcast of [scheduleReload], the only caller of
    [setTimeout].  [now] is what [Date.now()] returns. *)
Record Server := {
  sseClients : list nat;
  streams : gmap nat Stream;
  reloadTimer : option nat;
  timers : list (nat * Z);
  nextTimer : nat;
  now : Z;
  console : list (Level * string)
}.

Definition set_sseClients (f : list nat -> list nat) (s : Server) : Server :=
  {| sseClients := f (sseClients s); streams := streams s; reloadTimer := reloadTimer s;
     timers := timers s; nextTimer := nextTimer s; now := now s; console := console s |}.
Definition set_streams (f : gmap nat Stream -> gmap nat Stream) (s : Server) : Server :=
  {| sseClients := sseClients s; streams := f (streams s); reloadTimer := reloadTimer s;
     timers := timers s; nextTimer := nextTimer s; now := now s; console := console s |}.
Definition set_reloadTimer (h : option nat) (s : Server) : Server :=
  {| sseClients := sseClients s; streams := streams s; reloadTimer := h;
     timers := timers s; nextTimer := nextTimer s; now := now s; console := console s |}.
Definition set_timers (f : list (nat * Z) -> list (nat * Z)) (s : Server) : Server :=
  {| sseClients := sseClients s; streams := streams s; reloadTimer := reloadTimer s;
     timers := f (timers s); nextTimer := nextTimer s; now := now s; console := console s |}.
Definition set_nextTimer (n : nat) (s : Server) : Server :=
  {| sseClients := sseClients s; streams := streams s; reloadTimer := reloadTimer s;
     timers := timers s; nextTimer := n; now := now s; console := console s |}.
Definition set_now (t : Z) (s : Server) : Server :=
  {| sseClients := sseClients s; streams := streams s; reloadTimer := reloadTimer s;
     timers := timers s; nextTimer := nextTimer s; now := t; console := console s |}.
Definition set_console (f : list (Level * string) -> list (Level * string)) (s : Server)
  : Server :=
  {| sseClients := sseClients s; streams := streams s; reloadTimer := reloadTimer s;
     timers := timers s; nextTimer := nextTimer s; now := now s; console := f (console s) |}.

(** Computations over the server state that may raise. *)
Definition M (A : Type) : Type := Server -> completion A * Server.

Definition ret {A} (a : A) : M A := fun s => (Normal a, s).
Definition raise {A} (e : Exn) : M A := fun s => (Throw e, s).
Definition bind {A B} (m : M A) (k : A -> M B) : M B :=
  fun s => match m s with
           | (Normal a, s') => k a s'
           | (Throw e, s') => (Throw e, s')
           end.
Definition modify (f : Server -> Server) : M unit := fun s => (Normal tt, f s).
Definition gets {A} (f : Server -> A) : M A := fun s => (Normal (f s), s).

(** [try { m } catch (e) { h(e) }]. *)
Definition try_catch {A} (m : M A) (h : Exn -> M A) : M A :=
  fun s => match m s with
           | (Normal a, s') => (Normal a, s')
           | (Throw e, s') => h e s'
           end.

Declare Scope js_scope.
Delimit Scope js_scope with js.
Notation "x <- m ;; k" := (bind m (fun x => k))
  (at level 100, m at next level, right associativity) : js_scope.
Notation "m ;;; k" := (bind m (fun _ => k))
  (at level 100, right associativity) : js_scope.
Local Open Scope js_scope.

Definition console_write (l : Level) (msg : string) : M unit :=
  modify (set_console (fun c => c ++ [(l, msg)])).

Definition LF : string := str1 (ascii_of_N 10).

(* ------------------------------------------------------------------ *)
(** *** Server-sent events *)

Definition setHeader (res : nat) (name value : string) : M unit :=
  modify (set_streams (fun m =>
    match m !! res with
    | Some st => <[res := {| sink := sink st;
                             sent_headers := sent_headers st ++ [(name, value)];
                             written := written st |}]> m
    | None => m
    end)).

Definition sseHeaders (res : nat) : M unit :=
  setHeader res "Content-Type" "text/event-stream" ;;;
  setHeader res "Cache-Control" "no-cache, no-transform" ;;;
  setHeader res "Connection" "keep-alive".

(** [res.write(chunk)]; the boolean it returns is never read. *)
Definition write (res : nat) (chunk : string) : M unit :=
  fun s =>
    match streams s !! res with
    | Some st =>
        match sink st with
        | Writable =>
            (Normal tt,
             set_streams (fun m => <[res := {| sink := Writable;
                                               sent_headers := sent_headers st;
                                               written := written st ++ [chunk] |}]> m) s)
        | Dropping => (Normal tt, s)
        | Throwing => (Throw {| message := "write failed" |}, s)
        end
    | None => (Throw {| message := "write on a missing stream" |}, s)
    end.

Definition sseSend (res : nat) (event : string) (data : json) : M unit :=
  write res ("event: " +:+ event +:+ LF) ;;;
  write res ("data: " +:+ stringify data +:+ LF +:+ LF).

Fixpoint for_of (l : list nat) (body : nat -> M unit) : M unit :=
  match l with
  | [] => ret tt
  | x :: l' => body x ;;; for_of l' body
  end.

Definition sseBroadcast (event : string) (data : json) : M unit :=
  clients <- gets sseClients ;;
  for_of clients (fun client => sseSend client event data).

(** [Set.prototype.add] and [Set.prototype.delete]. *)
Definition set_add (x : nat) (l : list nat) : list nat :=
  if existsb (Nat.eqb x) l then l else l ++ [x].
Definition set_delete (x : nat) (l : list nat) : list nat :=
  List.filter (fun y => negb (Nat.eqb x y)) l.

(** [app.get('/api/stream')], and the listener it installs for [close];
    [res] is the handle of the response object of the request, which the
    runtime has put in [streams]. *)
Definition stream_route (res : nat) : M unit :=
  sseHeaders res ;;;
  sseSend res "hello" (JObj [("ok", JBool true)]) ;;;
  modify (set_sseClients (set_add res)).

Definition on_close (res : nat) : M unit :=
  modify (set_sseClients (set_delete res)).

(* ------------------------------------------------------------------ *)
(** *** Timers and [scheduleReload] *)

Definition clearTimeout (h : option nat) : M unit :=
  match h with
  | Some h => modify (set_timers (List.filter (fun t => negb (Nat.eqb (fst t) h))))
  | None => ret tt
  end.

Definition setTimeout (delay : Z) : M nat :=
  fun s =>
    let h := nextTimer s in
    (Normal h, set_nextTimer (S h) (set_timers (fun l => l ++ [(h, now s + delay)]) s)).

Definition scheduleReload : M unit :=
  old <- gets reloadTimer ;;
  clearTimeout old ;;;
  h <- setTimeout 200 ;;
  modify (set_reloadTimer (Some h)).

(** The callback given to [setTimeout]. *)
Definition reload_callback : M unit :=
  t <- gets now ;;
  sseBroadcast "reload" (JObj [("t", JNum t)]).

(** The callback given to [setInterval], every 25000 ms.  The event loop
    below runs timeouts only. *)
Definition keepalive_callback : M unit :=
  t <- gets now ;;
  sseBroadcast "ping" (JObj [("t", JNum t)]).

(** The event loop up to time [t]: each pending timeout that is due leaves
    the pending list and runs at its due time; all delays being equal, list
    order is due order.  A callback that raises ends the run. *)
Fixpoint run_due (t : Z) (pending : list (nat * Z)) : M unit :=
  match pending with
  | [] => ret tt
  | (h, due) :: rest =>
      if due <=? t then
        modify (set_now due) ;;;
        modify (set_timers (List.filter (fun x => negb (Nat.eqb (fst x) h)))) ;;;
        reload_callback ;;;
        run_due t rest
      else run_due t rest
  end.

Definition advance (t : Z) : M unit :=
  pending <- gets timers ;;
  run_due t pending ;;;
  modify (set_now t).

(** Calls of [scheduleReload] at the times [ts], the event loop running in
    between. *)
Fixpoint notify_at (ts : list Z) : M unit :=
  match ts with
  | [] => ret tt
  | t :: ts' => advance t ;;; scheduleReload ;;; notify_at ts'
  end.

(* ------------------------------------------------------------------ *)
(** *** The webhook route *)

Definition to_lower (c : ascii) : ascii :=
  let n := code c in
  if (65 <=? n) && (n <=? 90) then unit_of (n + 32) else c.

Fixpoint toLowerCase (s : string) : string :=
  match s with
  | EmptyString => EmptyString
  | String c s' => String (to_lower c) (toLowerCase s')
  end.

(** What the route sees of a request: the header table of Node (names in
    lower case, values decoded as Latin-1) and the parsed body. *)
Record Request := {
  req_headers : gmap string string;
  body : json
}.

(** [req.header(name)]. *)
Definition req_header (req : Request) (name : string) : option string :=
  req_headers req !! toLowerCase name.

(** The request as the middleware hands it to the route, from the bytes on
    the wire. *)
Definition receive (hdrs : gmap string string) (raw : string) : option Request :=
  match express_json raw with
  | Some b => Some {| req_headers := hdrs; body := b |}
  | None => None
  end.

Record Response := { status : Z; payload : json }.

Definition env_truthy (v : option string) : bool :=
  match v with Some s => str_truthy s | None => false end.

(** [a || b] on header values. *)
Definition or_else (a : option string) (b : option string) : option string :=
  if env_truthy a then a else b.

Fixpoint buffer_eqb (a b : Buffer) : bool :=
  match a, b with
  | [], [] => true
  | x :: a', y :: b' => (x =? y) && buffer_eqb a' b'
  | _, _ => false
  end.

(** [crypto.timingSafeEqual]: a RangeError on buffers of different byte
    length. *)
Definition timingSafeEqual (a b : Buffer) : M bool :=
  if Nat.eqb (length a) (length b) then ret (buffer_eqb a b)
  else raise {| message := "Input buffers must have the same byte length" |}.

(** The text [console.log] prints for a string is the string; for any
    other value the JSON text stands in for what the runtime would print. *)
Definition display (j : json) : string :=
  match j with JStr s => s | _ => stringify j end.

(** The third line of the challenge branch, as the source file has it
    (UTF-8); console lines are only ever kept, never measured or hashed. *)
Definition verify_hint : string :=
  "👉 이 값을 Notion Webhooks UI의 Verify 창에 붙여넣어 검증을 완료하세요.".

(** [req.header('X-Notion-Signature') || req.header('x-notion-signature') || ''] *)
Definition signature_header (req : Request) : string :=
  match or_else (req_header req "X-Notion-Signature")
                (or_else (req_header req "x-notion-signature") (Some "")) with
  | Some h => h
  | None => ""
  end.

(** The bytes of a body as they arrive, one per character of [raw]. *)
Definition raw_bytes (raw : string) : Buffer := map code (chars raw).

Section Webhook.

(** [process.env.NOTION_WEBHOOK_SECRET]. *)
Variable WEBHOOK_SECRET : option string.

Definition signature_trusted (req : Request) : M bool :=
  match WEBHOOK_SECRET with
  | Some secret =>
      let signatureHeader := signature_header req in
      let payloadMinified := stringify (body req) in
      let calc := "sha256=" +:+ hmac_sha256_hex secret payloadMinified in
      if Nat.eqb (str_length signatureHeader) (str_length calc)
      then timingSafeEqual (Buffer_from signatureHeader) (Buffer_from calc)
      else ret false
  | None => ret false
  end.

Definition webhook_try (req : Request) : M Response :=
  if truthy (body req) && opt_truthy (member (body req) "verification_token")
     && negb (env_truthy WEBHOOK_SECRET)
  then
    console_write LogLevel (LF +:+ "[Notion Webhook] verification_token received:") ;;;
    console_write LogLevel
      (match member (body req) "verification_token" with
       | Some tok => display tok
       | None => "undefined"
       end) ;;;
    console_write LogLevel verify_hint ;;;
    ret {| status := 200;
           payload := JObj [("ok", JBool true); ("step", JStr "verification")] |}
  else
    rejected <-
      (if env_truthy WEBHOOK_SECRET then
         trusted <- signature_trusted req ;;
         if negb trusted then
           console_write WarnLevel "[Notion Webhook] signature mismatch, ignoring." ;;;
           ret true
         else ret false
       else ret false) ;;
    if (rejected : bool) then
      ret {| status := 202;
             payload := JObj [("ok", JBool false); ("reason", JStr "signature_mismatch")] |}
    else
      scheduleReload ;;;
      ret {| status := 200; payload := JObj [("ok", JBool true)] |}.

(** [app.post('/api/notion-webhook')]. *)
Definition notion_webhook (req : Request) : M Response :=
  try_catch (webhook_try req)
    (fun e =>
       console_write ErrorLevel (message e) ;;;
       ret {| status := 500; payload := JObj [("ok", JBool false)] |}).

End Webhook.

(* ================================================================== *)
(** ** Notion pages to flat items *)
(* ================================================================== *)

(** White space and line terminators below U+0100. *)
Definition is_js_space (c : ascii) : bool :=
  let n := code c in ((9 <=? n) && (n <=? 13)) || (n =? 32) || (n =? 160).

Fixpoint trimStart (s : string) : string :=
  match s with
  | EmptyString => EmptyString
  | String c s' => if is_js_space c then trimStart s' else s
  end.

Fixpoint trimEnd (s : string) : string :=
  match s with
  | EmptyString => EmptyString
  | String c s' =>
      match trimEnd s' with
      | EmptyString => if is_js_space c then EmptyString else str1 c
      | r => String c r
      end
  end.

Definition trim (s : string) : string := trimEnd (trimStart s).

(** One fragment of rich text. *)
Record RichText := { plain_text : option string }.

Record DateValue := { start : option string }.

(** A property value, tagged by the one field it carries. *)
Inductive Property :=
  | title (t : list RichText)
  | rich_text (r : list RichText)
  | number (n : option Z)
  | date (d : option DateValue)
  | checkbox (b : bool)
  | other_property.

Record Page := {
  page_id : string;
  properties : option (gmap string Property)
}.

Record Item := {
  id : string;
  name : string;
  level : option Z;
  upper : option string;
  dependency : option string;
  early_start : option string;
  late_start : option string;
  early_finish : option string;
  late_finish : option string;
  done : bool
}.

(** [v.plain_text || ''] *)
Definition text_of (v : RichText) : string :=
  match plain_text v with
  | Some s => s
  | None => ""
  end.

(** [x || null] on a string. *)
Definition or_null (s : string) : option string :=
  if str_truthy s then Some s else None.

Definition richToText (r : option (list RichText)) : string :=
  join "" (map text_of (match r with Some l => l | None => [] end)).

(** [prop?.title], [prop?.rich_text], [prop?.number], [prop?.checkbox]. *)
Definition get_title (p : option Property) : option (list RichText) :=
  match p with Some (title t) => Some t | _ => None end.
Definition get_rich_text (p : option Property) : option (list RichText) :=
  match p with Some (rich_text r) => Some r | _ => None end.
Definition get_number (p : option Property) : option Z :=
  match p with Some (number n) => n | _ => None end.
Definition get_checkbox (p : option Property) : option bool :=
  match p with Some (checkbox b) => Some b | _ => None end.

Definition getDate (prop : option Property) : option string :=
  match prop with
  | Some (date (Some d)) =>
      match start d with
      | Some s => or_null s
      | None => None
      end
  | _ => None
  end.

(** [props['item name']?.title || props['Name']?.title || []]: an array,
    even an empty one, is truthy. *)
Definition title_of (props : gmap string Property) : list RichText :=
  match get_title (props !! "item name") with
  | Some t => t
  | None => match get_title (props !! "Name") with
            | Some t => t
            | None => []
            end
  end.

Definition pageToItem (p : Page) : Item :=
  let props := match properties p with Some m => m | None => ∅ end in
  let title := title_of props in
  {| id := page_id p;
     name := trim (match head title with Some v => text_of v | None => "" end);
     level := get_number (props !! "level");
     upper := or_null (richToText (get_rich_text (props !! "upper")));
     dependency := or_null (richToText (get_rich_text (props !! "dependency")));
     early_start := getDate (props !! "early start");
     late_start := getDate (props !! "late start");
     early_finish := getDate (props !! "early finish");
     late_finish := getDate (props !! "late finish");
     done := match get_checkbox (props !! "Done") with Some true => true | _ => false end |}.

Inductive Sort :=
  | by_property (property direction : string)
  | by_timestamp (timestamp direction : string).

Record QueryArgs := {
  database_id : option string;
  start_cursor : option string;
  page_size : Z;
  sorts : list Sort
}.

Record QueryResponse := {
  results : list Page;
  has_more : bool;
  next_cursor : option string
}.

Definition opt_json {A} (f : A -> json) (o : option A) : json :=
  match o with Some a => f a | None => JNull end.

(** The item as [res.json] serialises it. *)
Definition item_json (x : Item) : json :=
  JObj [("id", JStr (id x)); ("name", JStr (name x));
        ("level", opt_json JNum (level x));
        ("upper", opt_json JStr (upper x));
        ("dependency", opt_json JStr (dependency x));
        ("early_start", opt_json JStr (early_start x));
        ("late_start", opt_json JStr (late_start x));
        ("early_finish", opt_json JStr (early_finish x));
        ("late_finish", opt_json JStr (late_finish x));
        ("done", JBool (done x))].

Section Items.

(** [process.env.NOTION_DATABASE_ID], and [notion.databases.query] as the
    external store answers it: a page of results, or a rejection. *)
Variable DB_ID : option string.
Variable query : QueryArgs -> completion QueryResponse.

Definition query_args (cursor : option string) : QueryArgs :=
  {| database_id := DB_ID;
     start_cursor := cursor;
     page_size := 100;
     sorts := [by_property "level" "ascending";
               by_timestamp "last_edited_time" "ascending"] |}.

(** [resp.results.map(pageToItem).filter(x => x.name)] *)
Definition page_items (resp : QueryResponse) : list Item :=
  List.filter (fun x => str_truthy (name x)) (map pageToItem (results resp)).

(** [resp.has_more ? resp.next_cursor : undefined] *)
Definition following (resp : QueryResponse) : option string :=
  if has_more resp then next_cursor resp else None.

(** The do-while loop from its first statement; [None] when [fuel]
    requests did not reach the last page. *)
Fixpoint fetch_loop (fuel : nat) (items : list Item) (cursor : option string)
  : option (completion (list Item)) :=
  match fuel with
  | O => None
  | S fuel' =>
      match query (query_args cursor) with
      | Throw e => Some (Throw e)
      | Normal resp =>
          let items' := items ++ page_items resp in
          let cursor' := following resp in
          if env_truthy cursor' then fetch_loop fuel' items' cursor'
          else Some (Normal items')
      end
  end.

Definition fetchAllItems (fuel : nat) : option (completion (list Item)) :=
  fetch_loop fuel [] None.

(** [app.get('/api/items')]. *)
Definition items_route (fuel : nat) : option (M Response) :=
  match fetchAllItems fuel with
  | None => None
  | Some (Normal items) =>
      Some (ret {| status := 200;
                   payload := JObj [("items", JArr (map item_json items))] |})
  | Some (Throw e) =>
      Some (console_write ErrorLevel (message e) ;;;
            ret {| status := 500;
                   payload := JObj [("error", JStr "notion query failed");
                                    ("detail", JStr (message e))] |})
  end.

End Items.

(* ================================================================== *)
(** ** Concrete data used by the examples *)
(* ================================================================== *)

(** JSON text is written with an apostrophe for each double quote. *)
Fixpoint json_text (s : string) : string :=
  match s with
  | EmptyString => EmptyString
  | String c s' => String (if code c =? 39 then ascii_of_N 34 else c) (json_text s')
  end.

(** The server right after start-up. *)
Definition boot : Server :=
  {| sseClients := []; streams := ∅; reloadTimer := None; timers := [];
     nextTimer := 0; now := 0; console := [] |}.

(** The signature a sender computes: over the bytes it sends. *)
Definition sender_signature (secret raw : string) : string :=
  "sha256=" +:+ hex (SHA256.hmac (Buffer_from secret) (raw_bytes raw)).

Definition signed_headers (sig : string) : gmap string string :=
  {[ "x-notion-signature" := sig ]}.

Definition ok_response : Response :=
  {| status := 200; payload := JObj [("ok", JBool true)] |}.
Definition mismatch_response : Response :=
  {| status := 202;
     payload := JObj [("ok", JBool false); ("reason", JStr "signature_mismatch")] |}.
Definition error_response : Response :=
  {| status := 500; payload := JObj [("ok", JBool false)] |}.
Definition challenge_response : Response :=
  {| status := 200; payload := JObj [("ok", JBool true); ("step", JStr "verification")] |}.

(** The value [calc] of the route: the digest header the route expects. *)
Definition expected_signature (secret : string) (b : json) : string :=
  "sha256=" +:+ hmac_sha256_hex secret (stringify b).

Definition warned (s : Server) : Server :=
  set_console (fun c => c ++ [(WarnLevel, "[Notion Webhook] signature mismatch, ignoring.")]) s.

(** The number of code units of [s] above U+007F: each takes two bytes. *)
Fixpoint wide (s : string) : nat :=
  match s with
  | EmptyString => O
  | String c s' => Nat.add (if code c <? 128 then O else 1%nat) (wide s')
  end.

(** Inverse of [Buffer_from] on its range. *)
Fixpoint utf8_decode (bs : Buffer) : string :=
  match bs with
  | [] => EmptyString
  | b :: r =>
      if b <? 128 then String (unit_of b) (utf8_decode r)
      else match r with
           | b2 :: r' =>
               String (unit_of (Z.lor (Z.shiftl (Z.land b 31) 6) (Z.land b2 63)))
                      (utf8_decode r')
           | [] => EmptyString
           end
  end.

(** A request whose bytes are already the minified text. *)
Definition minified_request : Request :=
  {| req_headers := signed_headers (sender_signature "k" (json_text "{'a':1}"));
     body := JObj [("a", JNum 1)] |}.


(** The number of positions at which two strings carry different units. *)
Fixpoint count_diff (a b : string) : nat :=
  match a, b with
  | String x a', String y b' => Nat.add (if Ascii.eqb x y then O else 1%nat) (count_diff a' b')
  | _, _ => O
  end.

Fixpoint replace_last (c : ascii) (s : string) : string :=
  match s with
  | EmptyString => EmptyString
  | String _ EmptyString => String c EmptyString
  | String x s' => String x (replace_last c s')
  end.

Definition empty_request : Request := {| req_headers := ∅; body := JObj [] |}.

(** A request carrying a signature header that is no digest at all. *)
Definition unsigned_request : Request :=
  {| req_headers := signed_headers "sha256=00"; body := JObj [("a", JNum 1)] |}.

Definition token_body : json := JObj [("verification_token", JStr "secret_abc")].

(** The expected header for [token_body] under the secret [k], its last
    character replaced by U+00E9 (the byte 0xE9 on the wire). *)
Definition high_byte_header : string :=
  replace_last (ascii_of_N 233) (expected_signature "k" token_body).

Definition high_byte_request : Request :=
  {| req_headers := signed_headers high_byte_header; body := token_body |}.

(* ------------------------------------------------------------------ *)
(** *** The hub as a function of the stream table

    [sseBroadcast] reads [sseClients] once and from then on touches nothing
    but [streams]; these are the same computations on the table alone. *)

Definition hub (A : Type) : Type := gmap nat Stream -> completion A * gmap nat Stream.

Definition hub_write (res : nat) (chunk : string) : hub unit :=
  fun m =>
    match m !! res with
    | Some st =>
        match sink st with
        | Writable => (Normal tt, <[res := {| sink := Writable;
                                              sent_headers := sent_headers st;
                                              written := written st ++ [chunk] |}]> m)
        | Dropping => (Normal tt, m)
        | Throwing => (Throw {| message := "write failed" |}, m)
        end
    | None => (Throw {| message := "write on a missing stream" |}, m)
    end.

Definition hub_then (a b : hub unit) : hub unit :=
  fun m => match a m with
           | (Normal _, m') => b m'
           | (Throw e, m') => (Throw e, m')
           end.

Definition hub_send (res : nat) (event : string) (data : json) : hub unit :=
  hub_then (hub_write res ("event: " +:+ event +:+ LF))
           (hub_write res ("data: " +:+ stringify data +:+ LF +:+ LF)).

Fixpoint hub_broadcast (clients : list nat) (event : string) (data : json) : hub unit :=
  match clients with
  | [] => fun m => (Normal tt, m)
  | c :: l => hub_then (hub_send c event data) (hub_broadcast l event data)
  end.

Definition lift {A} (f : hub A) : M A :=
  fun s => (fst (f (streams s)), set_streams (fun _ => snd (f (streams s))) s).

(** The two chunks of one event. *)
Definition frames (event : string) (data : json) : list string :=
  ["event: " +:+ event +:+ LF; "data: " +:+ stringify data +:+ LF +:+ LF].

(** A stream after one event was sent to it. *)
Definition delivered (event : string) (data : json) (st : Stream) : Stream :=
  match sink st with
  | Writable => {| sink := Writable; sent_headers := sent_headers st;
                   written := written st ++ frames event data |}
  | _ => st
  end.

(** A hub with one subscriber whose connection is gone. *)
Definition dead_hub : Server :=
  {| sseClients := [7%nat];
     streams := {[ 7%nat := {| sink := Dropping; sent_headers := []; written := [] |} ]};
     reloadTimer := None; timers := []; nextTimer := 0; now := 0; console := [] |}.

(** A hub with one live subscriber and one whose writes raise. *)
Definition mixed_hub : Server :=
  {| sseClients := [1%nat; 2%nat];
     streams := {[ 1%nat := {| sink := Throwing; sent_headers := []; written := [] |};
                   2%nat := {| sink := Writable; sent_headers := []; written := [] |} ]};
     reloadTimer := None; timers := []; nextTimer := 0; now := 0; console := [] |}.

(** A hub with a live subscriber and one whose connection is gone. *)
Definition live_hub : Server :=
  {| sseClients := [1%nat; 2%nat];
     streams := {[ 1%nat := {| sink := Writable; sent_headers := []; written := [] |};
                   2%nat := {| sink := Dropping; sent_headers := []; written := [] |} ]};
     reloadTimer := None; timers := []; nextTimer := 0; now := 0; console := [] |}.

(** Call times of a burst: each call less than [D] after the one before. *)
Fixpoint burst (D : Z) (t0 : Z) (ts : list Z) : Prop :=
  match ts with
  | [] => True
  | t :: ts' => t0 <= t < t0 + D /\ burst D t ts'
  end.

Fixpoint last_time (t0 : Z) (ts : list Z) : Z :=
  match ts with
  | [] => t0
  | t :: ts' => last_time t ts'
  end.

(* ------------------------------------------------------------------ *)
(** *** Walks over the pages of the external store *)

(** [title[0]?.plain_text || ''] *)
Definition first_text (t : list RichText) : string :=
  match head t with Some v => text_of v | None => "" end.

(** [follows DB_ID query c rs c']: asked from cursor [c] on, the store
    answers the pages [rs] one after the other, each announcing a next page,
    and the cursor after them is [c']. *)
Inductive follows (DB_ID : option string) (query : QueryArgs -> completion QueryResponse)
  : option string -> list QueryResponse -> option string -> Prop :=
  | follows_nil c : follows DB_ID query c [] c
  | follows_cons c r rs c' :
      query (query_args DB_ID c) = Normal r ->
      env_truthy (following r) = true ->
      follows DB_ID query (following r) rs c' ->
      follows DB_ID query c (r :: rs) c'.

Definition fragment (s : string) : RichText := {| plain_text := Some s |}.

Definition named_page (i n : string) : Page :=
  {| page_id := i; properties := Some {[ "item name" := title [fragment n] ]} |}.

(** A page that has only the fallback title field. *)
Definition fallback_page : Page :=
  {| page_id := "p-fallback";
     properties := Some {[ "Name" := title [fragment "  Plan  "];
                           "level" := number (Some 2) ]} |}.

(** A page whose title starts with an empty fragment. *)
Definition split_title_page : Page :=
  {| page_id := "p-split";
     properties := Some {[ "item name" := title [fragment ""; fragment "Later"];
                           "upper" := rich_text [fragment ""; fragment "Later"] ]} |}.

Definition first_page : QueryResponse :=
  {| results := [named_page "a" "Alpha"; named_page "b" " "; fallback_page];
     has_more := true; next_cursor := Some "cursor-2" |}.

Definition second_page : QueryResponse :=
  {| results := [split_title_page; named_page "c" "Gamma"];
     has_more := false; next_cursor := None |}.

(** A store of two pages. *)
Definition two_page_store (a : QueryArgs) : completion QueryResponse :=
  match start_cursor a with
  | None => Normal first_page
  | Some c => if String.eqb c "cursor-2" then Normal second_page
              else Throw {| message := "invalid cursor" |}
  end.

(** A store whose second page cannot be fetched. *)
Definition failing_store (a : QueryArgs) : completion QueryResponse :=
  match start_cursor a with
  | None => Normal first_page
  | Some _ => Throw {| message := "request timed out" |}
  end.

(** A store of 100 and then 50 records, three of the first 100 unnamed. *)
Definition large_store (a : QueryArgs) : completion QueryResponse :=
  match start_cursor a with
  | None => Normal {| results := repeat (named_page "x" "Task") 97
                                 ++ repeat (named_page "y" "") 3;
                      has_more := true; next_cursor := Some "next" |}
  | Some _ => Normal {| results := repeat (named_page "z" "Task") 50;
                        has_more := false; next_cursor := None |}
  end.

(* ------------------------------------------------------------------ *)
(** *** Further notions used by the properties below *)

(** At most one timeout is pending, and [reloadTimer] names it. *)
Definition pending_ok (s : Server) : Prop :=
  match timers s with
  | [] => True
  | [(h, _)] => reloadTimer s = Some h
  | _ => False
  end.

(** Webhook requests arriving at given times, the event loop running in
    between; the responses in order of arrival. *)
Fixpoint deliver_at (secret : option string) (calls : list (Z * Request))
  : M (list Response) :=
  match calls with
  | [] => ret []
  | (t, req) :: rest =>
      advance t ;;;
      resp <- notion_webhook secret req ;;
      resps <- deliver_at secret rest ;;
      ret (resp :: resps)
  end.

(** The route accepts the request: its header is the expected one, or no
    secret is configured and the body carries no truthy token. *)
Definition accepted (secret : option string) (req : Request) : Prop :=
  match secret with
  | Some k =>
      if str_truthy k then signature_header req = expected_signature k (body req)
      else truthy (body req) && opt_truthy (member (body req) "verification_token") = false
  | None => truthy (body req) && opt_truthy (member (body req) "verification_token") = false
  end.

(** No code unit of [s] is a control character. *)
Definition control_free (s : string) : bool :=
  forallb (fun c => 32 <=? code c) (chars s).

Definition first_unit (s : string) : option ascii :=
  match s with
  | EmptyString => None
  | String c _ => Some c
  end.

Fixpoint last_unit (s : string) : option ascii :=
  match s with
  | EmptyString => None
  | String c EmptyString => Some c
  | String _ s' => last_unit s'
  end.

Definition not_space (o : option ascii) : Prop :=
  match o with
  | Some c => is_js_space c = false
  | None => True
  end.

(** The three headers of an event stream. *)
Definition sse_header_list : list (string * string) :=
  [("Content-Type", "text/event-stream");
   ("Cache-Control", "no-cache, no-transform");
   ("Connection", "keep-alive")].

(** A store that always announces one more page. *)
Definition looping_store (a : QueryArgs) : completion QueryResponse :=
  Normal {| results := [named_page "a" "Alpha"]; has_more := true;
            next_cursor := Some "again" |}.

(** A server with one open connection that has not subscribed yet. *)
Definition fresh_connection : Server :=
  {| sseClients := [];
     streams := {[ 3%nat := {| sink := Writable; sent_headers := []; written := [] |} ]};
     reloadTimer := None; timers := []; nextTimer := 0; now := 0; console := [] |}.

Definition challenge_request : Request :=
  {| req_headers := ∅; body := token_body |}.

Definition upper_page (l : list RichText) : Page :=
  {| page_id := "p-upper";
     properties := Some {[ "item name" := title [fragment "Task"];
                           "upper" := rich_text l ]} |}.

(** A reload broadcast made when the clock shows [t]. *)
Definition reload_at (t : Z) : M unit := fun s => reload_callback (set_now t s).

Fixpoint reloads_at (fs : list Z) : M unit :=
  match fs with
  | [] => ret tt
  | t :: fs' => reload_at t ;;; reloads_at fs'
  end.

(** The times at which calls at [ts] let a timer run out: [D] after each
    call that no later call follows within [D]. *)
Fixpoint fire_times (D : Z) (ts : list Z) : list Z :=
  match ts with
  | [] => []
  | t :: rest =>
      match rest with
      | [] => [t + D]
      | t' :: _ => if t + D <=? t' then (t + D) :: fire_times D rest
                   else fire_times D rest
      end
  end.

(** Call times in the order of the clock. *)
Fixpoint ascending (t0 : Z) (ts : list Z) : Prop :=
  match ts with
  | [] => True
  | t :: ts' => t0 <= t /\ ascending t ts'
  end.

Fixpoint hub_reloads (clients : list nat) (fs : list Z) : hub unit :=
  match fs with
  | [] => fun m => (Normal tt, m)
  | t :: fs' => hub_then (hub_broadcast clients "reload" (JObj [("t", JNum t)]))
                         (hub_reloads clients fs')
  end.

(** A run of the server agrees with a run of the hub alone: same outcome,
    same streams, and the subscriber set [clients]. *)
Definition agrees (r : completion unit * Server) (h : completion unit * gmap nat Stream)
           (clients : list nat) : Prop :=
  fst r = fst h /\ streams (snd r) = snd h /\ sseClients (snd r) = clients.

(** The texts of the fragments, one after the other. *)
Definition concat_text (l : list RichText) : string :=
  fold_right (fun v acc => match plain_text v with
                           | Some s => s +:+ acc
                           | None => acc
                           end) EmptyString l.

(** An item with nothing but its identifier. *)
Definition blank_item (i : string) : Item :=
  {| id := i; name := EmptyString; level := None; upper := None; dependency := None;
     early_start := None; late_start := None; early_finish := None; late_finish := None;
     done := false |}.

Definition bare_page : Page := {| page_id := "p-bare"; properties := None |}.


(** Every code unit of [s] is white space; the empty string is blank. *)
Definition blank (s : string) : bool := forallb is_js_space (chars s).

(** The plain text of the first fragment of a title, empty when the title
    has no fragment or the fragment no text. *)
Definition first_plain (t : list RichText) : string :=
  match t with
  | f :: _ => match plain_text f with Some s => s | None => EmptyString end
  | [] => EmptyString
  end.

(** A stream after the chunks [cs] were written to it. *)
Definition received (cs : list string) (st : Stream) : Stream :=
  match sink st with
  | Writable => {| sink := Writable; sent_headers := sent_headers st;
                   written := written st ++ cs |}
  | _ => st
  end.

(** The chunks of the reload events stamped [fs], in order. *)
Definition reload_frames (fs : list Z) : list string :=
  flat_map (fun t => ["event: reload" +:+ LF;
                      "data: " +:+ stringify (JObj [("t", JNum t)]) +:+ LF +:+ LF]) fs.

(** A page that has no ['item name'] and an untitled ['Name']. *)
Definition untitled_page : Page :=
  {| page_id := "p-untitled"; properties := Some {[ "Name" := title [] ]} |}.

(** A page whose fallback title is white space only. *)
Definition spaces_page : Page :=
  {| page_id := "p-spaces"; properties := Some {[ "Name" := title [fragment "   "] ]} |}.

Definition untitled_response : QueryResponse :=
  {| results := [untitled_page; spaces_page]; has_more := false; next_cursor := None |}.
(* ================================================================== *)
(** * Properties *)
(* ================================================================== *)

Example sha256_abc :
  hex (SHA256.sha256 (Buffer_from "abc"))
  = "ba7816bf8f01cfea414140de5dae2223b00361a396177a9cb410ff61f20015ad".
Proof. vm_compute. reflexivity. Qed.

Example sha256_two_blocks :
  hex (SHA256.sha256 (Buffer_from
        "abcdbcdecdefdefgefghfghighijhijkijkljklmklmnlmnomnopnopq"))
  = "248d6a61d20638b8e5c026930c3e6039a33ce45964ff2167f6ecedd419db06c1".
Proof. vm_compute. reflexivity. Qed.

Example hmac_rfc4231_case2 :
  hmac_sha256_hex "Jefe" "what do ya want for nothing?"
  = "5bdcc146bf60754e6a042426089575c75a003f089d2739839dec58b964ec3843".
Proof. vm_compute. reflexivity. Qed.

(** ** Buffers and strings *)

Lemma utf8_decode_unit (c : ascii) (r : Buffer) :
  utf8_decode (utf8_unit c ++ r) = String c (utf8_decode r).
Proof.
  destruct c as [b0 b1 b2 b3 b4 b5 b6 b7].
  destruct b0, b1, b2, b3, b4, b5, b6, b7; reflexivity.
Qed.

Lemma utf8_decode_from (s : string) : utf8_decode (Buffer_from s) = s.
Proof.
  induction s as [|c s IH]; [reflexivity|].
  cbn [Buffer_from]. rewrite utf8_decode_unit. now rewrite IH.
Qed.

Lemma Buffer_from_inj (a b : string) : Buffer_from a = Buffer_from b -> a = b.
Proof.
  intros H. rewrite <- (utf8_decode_from a), <- (utf8_decode_from b). now rewrite H.
Qed.

Lemma buffer_eqb_eq (a b : Buffer) : buffer_eqb a b = true <-> a = b.
Proof.
  revert b. induction a as [|x a IH]; intros [|y b]; cbn; try (split; congruence).
  rewrite andb_true_iff, Z.eqb_eq, IH. split; [intros [-> ->]; reflexivity|].
  intros [= -> ->]. split; reflexivity.
Qed.

Lemma Buffer_from_length (s : string) :
  length (Buffer_from s) = (String.length s + wide s)%nat.
Proof.
  induction s as [|c s IH]; [reflexivity|].
  cbn [Buffer_from wide String.length]. rewrite length_app, IH.
  unfold utf8_unit. destruct (code c <? 128); cbn; lia.
Qed.

Lemma wide_append (a b : string) : wide (a +:+ b) = (wide a + wide b)%nat.
Proof. induction a as [|c a IH]; simpl; [reflexivity|]. rewrite IH. lia. Qed.

Lemma code_unit_of (m : Z) : 0 <= m < 256 -> code (unit_of m) = m.
Proof.
  intros H. unfold code, unit_of. rewrite N_ascii_embedding by lia. lia.
Qed.

Lemma hex_digit_narrow (n : Z) : 0 <= n < 16 -> (code (hex_digit n) <? 128) = true.
Proof.
  intros H. apply Z.ltb_lt. unfold hex_digit.
  change (ascii_of_N (Z.to_N ?m)) with (unit_of m).
  rewrite code_unit_of; destruct (n <? 10); lia.
Qed.

Lemma wide_hex (bs : Buffer) : Forall (fun b => 0 <= b < 256) bs -> wide (hex bs) = O.
Proof.
  induction 1 as [|b bs Hb _ IH]; [reflexivity|].
  cbn [hex wide]. rewrite IH.
  rewrite !hex_digit_narrow; [reflexivity| |].
  - change 15 with (Z.ones 4). rewrite Z.land_ones by lia.
    pose proof (Z.mod_pos_bound b (2 ^ 4)). lia.
  - rewrite Z.shiftr_div_pow2 by lia. change (2 ^ 4) with 16.
    split; [apply Z.div_pos; lia | apply Z.div_lt_upper_bound; lia].
Qed.

Lemma be_bytes_range (n : nat) (x : Z) : Forall (fun b => 0 <= b < 256) (SHA256.be_bytes n x).
Proof.
  unfold SHA256.be_bytes. apply List.Forall_forall. intros b Hb.
  apply in_map_iff in Hb as (i & <- & _).
  change 255 with (Z.ones 8). rewrite Z.land_ones by lia.
  apply Z.mod_pos_bound. lia.
Qed.

Lemma sha256_range (msg : Buffer) : Forall (fun b => 0 <= b < 256) (SHA256.sha256 msg).
Proof.
  unfold SHA256.sha256, SHA256.digest_bytes.
  apply List.Forall_forall. intros b Hb. apply in_flat_map in Hb as (w & _ & Hb).
  pose proof (be_bytes_range 4 w) as H. rewrite List.Forall_forall in H. now apply H.
Qed.

Lemma wide_hmac_hex (key data : string) : wide (hmac_sha256_hex key data) = O.
Proof. unfold hmac_sha256_hex, SHA256.hmac. apply wide_hex, sha256_range. Qed.

Lemma wide_signature (key data : string) :
  wide ("sha256=" +:+ hmac_sha256_hex key data) = O.
Proof. rewrite wide_append, wide_hmac_hex. reflexivity. Qed.

(** ** The webhook route *)

Lemma scheduleReload_normal (s : Server) : fst (scheduleReload s) = Normal tt.
Proof. unfold scheduleReload, bind, gets. cbv beta. destruct (reloadTimer s); reflexivity. Qed.

Lemma scheduleReload_eq (s : Server) : scheduleReload s = (Normal tt, snd (scheduleReload s)).
Proof. pose proof (scheduleReload_normal s) as H. destruct (scheduleReload s). cbn in *. congruence. Qed.

Lemma scheduleReload_reloadTimer (s : Server) :
  reloadTimer (snd (scheduleReload s)) = Some (nextTimer s).
Proof. unfold scheduleReload, bind, gets. cbv beta. destruct (reloadTimer s); reflexivity. Qed.

Lemma scheduleReload_timers (s : Server) :
  timers (snd (scheduleReload s))
  = List.filter (fun t => match reloadTimer s with
                          | Some h => negb (Nat.eqb (fst t) h)
                          | None => true
                          end) (timers s)
    ++ [(nextTimer s, now s + 200)].
Proof.
  unfold scheduleReload, bind, gets. cbv beta.
  destruct (reloadTimer s); cbn; [reflexivity|].
  f_equal. induction (timers s) as [|t l IH]; cbn; congruence.
Qed.

Lemma scheduleReload_frame (s : Server) :
  sseClients (snd (scheduleReload s)) = sseClients s
  /\ streams (snd (scheduleReload s)) = streams s
  /\ console (snd (scheduleReload s)) = console s
  /\ now (snd (scheduleReload s)) = now s.
Proof. unfold scheduleReload, bind, gets. cbv beta. destruct (reloadTimer s); cbn; auto. Qed.

(** The route under a configured secret, by the three tests it makes. *)
Lemma notion_webhook_secret (k : string) (req : Request) (s : Server) :
  str_truthy k = true ->
  notion_webhook (Some k) req s =
    let h := signature_header req in
    let calc := expected_signature k (body req) in
    if Nat.eqb (str_length h) (str_length calc) then
      if Nat.eqb (length (Buffer_from h)) (length (Buffer_from calc)) then
        if buffer_eqb (Buffer_from h) (Buffer_from calc)
        then (Normal ok_response, snd (scheduleReload s))
        else (Normal mismatch_response, warned s)
      else (Normal error_response,
            set_console (fun c => c ++ [(ErrorLevel,
                           "Input buffers must have the same byte length")]) s)
    else (Normal mismatch_response, warned s).
Proof.
  intros Hk. unfold notion_webhook, try_catch, webhook_try.
  cbn [env_truthy]. rewrite Hk, andb_false_r. cbn [negb].
  unfold bind at 1. unfold bind at 1. unfold signature_trusted.
  fold (expected_signature k (body req)).
  cbv zeta.
  destruct (Nat.eqb (str_length (signature_header req))
                    (str_length (expected_signature k (body req)))); [|reflexivity].
  unfold timingSafeEqual.
  destruct (Nat.eqb (length (Buffer_from (signature_header req)))
                    (length (Buffer_from (expected_signature k (body req))))); [|reflexivity].
  cbn [ret].
  destruct (buffer_eqb _ _); cbn; [|reflexivity].
  unfold bind. rewrite scheduleReload_eq. reflexivity.
Qed.

Lemma expected_signature_length (k : string) (b : json) :
  str_length (expected_signature k b) <> O.
Proof. unfold expected_signature. generalize (hmac_sha256_hex k (stringify b)). intros x. cbn. discriminate. Qed.

Lemma signature_header_absent (req : Request) :
  req_headers req !! "x-notion-signature" = None -> signature_header req = "".
Proof.
  intros H. unfold signature_header, req_header.
  change (toLowerCase "X-Notion-Signature") with "x-notion-signature".
  change (toLowerCase "x-notion-signature") with "x-notion-signature".
  rewrite H. reflexivity.
Qed.

(** Under a configured secret, a header that is not the expected one never
    yields the accepting response and never touches the timers. *)
Lemma notion_webhook_untrusted (k : string) (req : Request) (s : Server) :
  str_truthy k = true ->
  signature_header req <> expected_signature k (body req) ->
  fst (notion_webhook (Some k) req s) <> Normal ok_response
  /\ timers (snd (notion_webhook (Some k) req s)) = timers s
  /\ reloadTimer (snd (notion_webhook (Some k) req s)) = reloadTimer s
  /\ streams (snd (notion_webhook (Some k) req s)) = streams s.
Proof.
  intros Hk Hne. rewrite (notion_webhook_secret k req s Hk). cbv zeta.
  destruct (Nat.eqb (str_length _) _); [|repeat split; discriminate].
  destruct (Nat.eqb _ _); [|repeat split; discriminate].
  destruct (buffer_eqb _ _) eqn:E; [|repeat split; discriminate].
  apply buffer_eqb_eq, Buffer_from_inj in E. contradiction.
Qed.

Lemma notion_webhook_mismatch (k : string) (req : Request) (s : Server) :
  str_truthy k = true ->
  signature_header req <> expected_signature k (body req) ->
  str_length (signature_header req) <> str_length (expected_signature k (body req))
  \/ wide (signature_header req) = O ->
  notion_webhook (Some k) req s = (Normal mismatch_response, warned s).
Proof.
  intros Hk Hne Hcase. rewrite (notion_webhook_secret k req s Hk). cbv zeta.
  destruct (Nat.eqb (str_length _) _) eqn:El; [|reflexivity].
  apply Nat.eqb_eq in El.
  destruct Hcase as [Hl|Hw]; [contradiction|].
  rewrite !Buffer_from_length.
  assert (wide (expected_signature k (body req)) = O) as -> by apply wide_signature.
  rewrite Hw. unfold str_length in El. rewrite El, Nat.eqb_refl.
  destruct (buffer_eqb _ _) eqn:E; [|reflexivity].
  apply buffer_eqb_eq, Buffer_from_inj in E. contradiction.
Qed.

(** C1 (as amended): with a secret configured the digest is the HMAC-SHA256,
    keyed by the secret, of [JSON.stringify] of the parsed body, and a header
    equal to [sha256=] followed by that digest in hexadecimal is answered
    200 [{ok:true}] with a reload timer started 200 ms ahead. *)
Theorem C1_trusted_on_reserialized_body (k : string) (req : Request) (s : Server) :
  str_truthy k = true ->
  signature_header req
    = "sha256=" +:+ hex (SHA256.hmac (Buffer_from k) (Buffer_from (stringify (body req)))) ->
  notion_webhook (Some k) req s = (Normal ok_response, snd (scheduleReload s))
  /\ reloadTimer (snd (scheduleReload s)) = Some (nextTimer s)
  /\ In (nextTimer s, now s + 200) (timers (snd (scheduleReload s))).
Proof.
  intros Hk Hh. split; [|split].
  - rewrite (notion_webhook_secret k req s Hk). cbv zeta.
    fold (hmac_sha256_hex k (stringify (body req))) in Hh.
    fold (expected_signature k (body req)) in Hh.
    rewrite Hh, !Nat.eqb_refl.
    replace (buffer_eqb _ _) with true; [reflexivity|].
    symmetry. now apply buffer_eqb_eq.
  - apply scheduleReload_reloadTimer.
  - rewrite scheduleReload_timers. apply in_or_app. right. now left.
Qed.

Lemma C1_trusted_on_reserialized_body_witness :
  notion_webhook (Some "k") minified_request boot
    = (Normal ok_response, snd (scheduleReload boot))
  /\ reloadTimer (snd (scheduleReload boot)) = Some (nextTimer boot)
  /\ In (nextTimer boot, now boot + 200) (timers (snd (scheduleReload boot))).
Proof.
  apply (C1_trusted_on_reserialized_body "k" minified_request boot).
  - reflexivity.
  - vm_compute. reflexivity.
Defined.

(** C1 (as stated) fails: a body with a space after the colon, signed over
    exactly the bytes received, is answered 202 signature_mismatch and no
    reload is scheduled. *)
Lemma C1_counterexample_exact_bytes :
  exists req,
    receive (signed_headers (sender_signature "k" (json_text "{'a': 1}")))
            (json_text "{'a': 1}") = Some req
    /\ signature_header req = sender_signature "k" (json_text "{'a': 1}")
    /\ notion_webhook (Some "k") req boot = (Normal mismatch_response, warned boot).
Proof.
  eexists. split; [vm_compute; reflexivity|].
  split; vm_compute; reflexivity.
Qed.
(** C4 (as amended): with a secret configured, a request whose signature
    header is absent, or has another length than the expected digest header,
    or consists of code units below U+0080 and differs from the expected
    header, is answered 202 [{ok:false, reason:"signature_mismatch"}] after a
    warning, the timers untouched; and whenever the header differs from the
    expected one the accepting response is not given and no reload is
    scheduled. *)
Theorem C4_failed_signature_rejected (k : string) (req : Request) (s : Server) :
  str_truthy k = true ->
  (req_headers req !! "x-notion-signature" = None ->
     notion_webhook (Some k) req s = (Normal mismatch_response, warned s))
  /\ (str_length (signature_header req) <> str_length (expected_signature k (body req)) ->
     notion_webhook (Some k) req s = (Normal mismatch_response, warned s))
  /\ (signature_header req <> expected_signature k (body req) ->
      wide (signature_header req) = O ->
     notion_webhook (Some k) req s = (Normal mismatch_response, warned s))
  /\ (signature_header req <> expected_signature k (body req) ->
      fst (notion_webhook (Some k) req s) <> Normal ok_response
      /\ timers (snd (notion_webhook (Some k) req s)) = timers s
      /\ reloadTimer (snd (notion_webhook (Some k) req s)) = reloadTimer s)
  /\ timers (warned s) = timers s /\ reloadTimer (warned s) = reloadTimer s.
Proof.
  intros Hk.
  assert (forall h, str_length h <> str_length (expected_signature k (body req)) ->
                    h <> expected_signature k (body req)) as Hlen
    by (intros h Hl ->; now apply Hl).
  split; [|split; [|split; [|split; [|split; reflexivity]]]].
  - intros Habs. apply signature_header_absent in Habs.
    assert (str_length (signature_header req)
            <> str_length (expected_signature k (body req))) as Hl.
    { rewrite Habs. intros E. symmetry in E. now apply expected_signature_length in E. }
    apply notion_webhook_mismatch; auto.
  - intros Hl. apply notion_webhook_mismatch; auto.
  - intros Hne Hw. apply notion_webhook_mismatch; auto.
  - intros Hne. destruct (notion_webhook_untrusted k req s Hk Hne) as (H1 & H2 & H3 & _).
    auto.
Qed.

Lemma C4_failed_signature_rejected_witness :
  notion_webhook (Some "k") unsigned_request boot = (Normal mismatch_response, warned boot).
Proof.
  apply (proj1 (proj2 (C4_failed_signature_rejected "k" unsigned_request boot eq_refl))).
  vm_compute. discriminate.
Defined.

(** C4 (as stated) fails: the body ["\u001f"] in brackets, signed over its
    bytes, is accepted, and so is the same request after the one byte [f] of
    the body is changed to [F]. *)
Lemma C4_counterexample_body_byte_mutated :
  count_diff (json_text "['\u001f']") (json_text "['\u001F']") = 1%nat
  /\ String.length (json_text "['\u001f']") = String.length (json_text "['\u001F']")
  /\ (exists req,
        receive (signed_headers (sender_signature "k" (json_text "['\u001f']")))
                (json_text "['\u001f']") = Some req
        /\ notion_webhook (Some "k") req boot = (Normal ok_response, snd (scheduleReload boot)))
  /\ (exists req,
        receive (signed_headers (sender_signature "k" (json_text "['\u001f']")))
                (json_text "['\u001F']") = Some req
        /\ notion_webhook (Some "k") req boot = (Normal ok_response, snd (scheduleReload boot))
        /\ notion_webhook (Some "k") req boot <> (Normal mismatch_response, warned boot)).
Proof.
  split; [reflexivity|]. split; [reflexivity|]. split.
  - eexists. split; [vm_compute; reflexivity|]. vm_compute. reflexivity.
  - eexists. split; [vm_compute; reflexivity|]. split; [vm_compute; reflexivity|].
    vm_compute. discriminate.
Qed.

(** C5 (as amended): with no secret configured and no truthy verification
    token in the body, the request is answered 200 [{ok:true}] with a reload
    timer started 200 ms ahead; the console is left as it was. *)
Theorem C5_permissive_mode_trusted (secret : option string) (req : Request) (s : Server) :
  env_truthy secret = false ->
  truthy (body req) && opt_truthy (member (body req) "verification_token") = false ->
  notion_webhook secret req s = (Normal ok_response, snd (scheduleReload s))
  /\ reloadTimer (snd (scheduleReload s)) = Some (nextTimer s)
  /\ In (nextTimer s, now s + 200) (timers (snd (scheduleReload s)))
  /\ console (snd (scheduleReload s)) = console s.
Proof.
  intros Hs Hb. split; [|split; [|split]].
  - unfold notion_webhook, try_catch, webhook_try. rewrite Hs, Hb. cbn [andb].
    unfold bind at 1. cbn [ret]. unfold bind. rewrite scheduleReload_eq. reflexivity.
  - apply scheduleReload_reloadTimer.
  - rewrite scheduleReload_timers. apply in_or_app. right. now left.
  - apply scheduleReload_frame.
Qed.

Lemma C5_permissive_mode_trusted_witness :
  notion_webhook None empty_request boot = (Normal ok_response, snd (scheduleReload boot))
  /\ reloadTimer (snd (scheduleReload boot)) = Some (nextTimer boot)
  /\ In (nextTimer boot, now boot + 200) (timers (snd (scheduleReload boot)))
  /\ console (snd (scheduleReload boot)) = console boot.
Proof.
  apply (C5_permissive_mode_trusted None empty_request boot); reflexivity.
Defined.

(** C5 (as stated) fails: the permissive request is accepted and the console
    stays empty, so no warning is logged. *)
Lemma C5_counterexample_no_warning :
  fst (notion_webhook None empty_request boot) = Normal ok_response
  /\ console (snd (notion_webhook None empty_request boot)) = [].
Proof. split; vm_compute; reflexivity. Qed.

(** The route itself never raises: what is raised inside is caught. *)
Lemma notion_webhook_returns (secret : option string) (req : Request) (s : Server) :
  exists resp, fst (notion_webhook secret req s) = Normal resp.
Proof.
  unfold notion_webhook, try_catch.
  destruct (webhook_try secret req s) as [[resp|e] s']; eexists; reflexivity.
Qed.

(** With a secret configured the challenge response is never given. *)
Lemma secret_never_challenges (k : string) (req : Request) (s : Server) :
  str_truthy k = true ->
  fst (notion_webhook (Some k) req s) <> Normal challenge_response.
Proof.
  intros Hk. rewrite (notion_webhook_secret k req s Hk). cbv zeta.
  repeat (destruct (Nat.eqb _ _)); try destruct (buffer_eqb _ _); discriminate.
Qed.

(** C10 at its failing input: secret configured, a verification token in the
    body, and a header that is the expected one but for its last character,
    U+00E9.  The two strings have the same length, the two buffers do not,
    [timingSafeEqual] raises, and the route answers 500 [{ok:false}] in
    place of 202 signature_mismatch. *)
Theorem C10_high_byte_header_answers_500 :
  opt_truthy (member (body high_byte_request) "verification_token") = true
  /\ signature_header high_byte_request <> expected_signature "k" token_body
  /\ str_length (signature_header high_byte_request)
     = str_length (expected_signature "k" token_body)
  /\ count_diff (signature_header high_byte_request) (expected_signature "k" token_body) = 1%nat
  /\ notion_webhook (Some "k") high_byte_request boot
     = (Normal error_response,
        set_console (fun c => c ++ [(ErrorLevel,
                      "Input buffers must have the same byte length")]) boot).
Proof.
  split; [reflexivity|]. split; [vm_compute; discriminate|].
  split; [vm_compute; reflexivity|]. split; vm_compute; reflexivity.
Qed.

(** ** The broadcast hub *)

Lemma set_streams_id (s : Server) : set_streams (fun _ => streams s) s = s.
Proof. now destruct s. Qed.

Lemma write_lift (res : nat) (chunk : string) (s : Server) :
  write res chunk s = lift (hub_write res chunk) s.
Proof.
  unfold write, lift, hub_write.
  destruct (streams s !! res) as [st|]; cbn; [|now rewrite set_streams_id].
  destruct (sink st); cbn; try now rewrite set_streams_id.
  reflexivity.
Qed.

Lemma bind_lift (a b : hub unit) (s : Server) :
  bind (lift a) (fun _ => lift b) s = lift (hub_then a b) s.
Proof.
  unfold bind, lift, hub_then. cbn.
  destruct (a (streams s)) as [[[]|e] m']; reflexivity.
Qed.

Lemma bind_ext {A B} (m m' : M A) (k k' : A -> M B) (s : Server) :
  m s = m' s -> (forall a s', k a s' = k' a s') -> bind m k s = bind m' k' s.
Proof.
  intros Hm Hk. unfold bind. rewrite Hm. destruct (m' s) as [[a|e] s']; [apply Hk|reflexivity].
Qed.

Lemma sseSend_lift (res : nat) (event : string) (data : json) (s : Server) :
  sseSend res event data s = lift (hub_send res event data) s.
Proof.
  unfold sseSend, hub_send. rewrite <- bind_lift.
  apply bind_ext; [apply write_lift | intros _ s'; apply write_lift].
Qed.

Lemma for_of_lift (l : list nat) (event : string) (data : json) (s : Server) :
  for_of l (fun client => sseSend client event data) s
  = lift (hub_broadcast l event data) s.
Proof.
  revert s. induction l as [|c l IH]; intros s.
  - cbn. unfold ret, lift. cbn. now rewrite set_streams_id.
  - cbn [for_of hub_broadcast]. rewrite <- bind_lift.
    apply bind_ext; [apply sseSend_lift | intros _ s'; apply IH].
Qed.

Lemma sseBroadcast_lift (event : string) (data : json) (s : Server) :
  sseBroadcast event data s = lift (hub_broadcast (sseClients s) event data) s.
Proof. unfold sseBroadcast, bind, gets. apply for_of_lift. Qed.

(** A broadcast, whatever its outcome, leaves the subscriber set, the timers,
    the clock and the console alone. *)
Lemma sseBroadcast_frame (event : string) (data : json) (s : Server) :
  sseClients (snd (sseBroadcast event data s)) = sseClients s
  /\ timers (snd (sseBroadcast event data s)) = timers s
  /\ reloadTimer (snd (sseBroadcast event data s)) = reloadTimer s
  /\ now (snd (sseBroadcast event data s)) = now s
  /\ console (snd (sseBroadcast event data s)) = console s.
Proof. rewrite sseBroadcast_lift. cbn. auto. Qed.

Lemma hub_send_delivers (c : nat) (event : string) (data : json)
      (m : gmap nat Stream) (st : Stream) :
  m !! c = Some st -> sink st <> Throwing ->
  hub_send c event data m = (Normal tt, <[c := delivered event data st]> m).
Proof.
  intros Hc Hs. unfold hub_send, hub_then, hub_write, delivered, frames. rewrite Hc.
  destruct (sink st) eqn:E; [| |contradiction].
  - rewrite lookup_insert_eq. cbn [sink sent_headers written].
    rewrite insert_insert_eq, <- app_assoc. reflexivity.
  - rewrite Hc, E. rewrite insert_id; [reflexivity|assumption].
Qed.

Lemma hub_broadcast_delivers (l : list nat) (event : string) (data : json)
      (m : gmap nat Stream) :
  NoDup l ->
  (forall c, In c l -> exists st, m !! c = Some st /\ sink st <> Throwing) ->
  exists m', hub_broadcast l event data m = (Normal tt, m')
    /\ (forall c st, In c l -> m !! c = Some st ->
                     m' !! c = Some (delivered event data st))
    /\ (forall c, ~ In c l -> m' !! c = m !! c).
Proof.
  revert m. induction l as [|c l IH]; intros m Hnd Hall.
  - exists m. cbn. split; [reflexivity|]. split; [intros c st []|reflexivity].
  - apply NoDup_cons in Hnd as [Hc Hnd].
    destruct (Hall c (or_introl eq_refl)) as (st & Hst & Hsink).
    cbn [hub_broadcast]. unfold hub_then. rewrite (hub_send_delivers c _ _ m st Hst Hsink).
    destruct (IH (<[c := delivered event data st]> m) Hnd) as (m' & Hrun & Hin & Hout).
    { intros c' Hc'. destruct (Hall c' (or_intror Hc')) as (st' & Hst' & Hs').
      exists st'. split; [|assumption].
      rewrite lookup_insert_ne; [assumption|]. intros ->. apply Hc. now apply list_elem_of_In. }
    exists m'. split; [assumption|]. split.
    + intros c' st' [<-|Hc'] Hl.
      * rewrite Hout by (intros H; apply Hc; now apply list_elem_of_In).
        rewrite lookup_insert_eq. congruence.
      * apply Hin; [assumption|]. rewrite lookup_insert_ne; [assumption|].
        intros ->. apply Hc. now apply list_elem_of_In.
    + intros c' Hc'. rewrite Hout by (intros H; apply Hc'; now right).
      apply lookup_insert_ne. intros ->. apply Hc'. now left.
Qed.

Lemma set_delete_spec (x : nat) (l : list nat) : ~ In x (set_delete x l).
Proof.
  unfold set_delete. intros H. apply filter_In in H as [_ H].
  now rewrite Nat.eqb_refl in H.
Qed.

Lemma set_add_NoDup (x : nat) (l : list nat) : NoDup l -> NoDup (set_add x l).
Proof.
  intros H. unfold set_add. destruct (existsb (Nat.eqb x) l) eqn:E; [assumption|].
  apply NoDup_app. split; [assumption|]. split; [|apply NoDup_singleton].
  intros y Hy Hx. apply list_elem_of_singleton in Hx as ->.
  assert (existsb (Nat.eqb x) l = true) as E'.
  { apply existsb_exists. exists x. split; [now apply list_elem_of_In|apply Nat.eqb_refl]. }
  congruence.
Qed.

(** C2 (as amended): a broadcast to subscribers none of whose writes raises
    completes normally; every subscriber in the set whose stream takes writes
    has the two chunks of the event appended, a subscriber whose stream
    discards writes is left as it was, streams outside the set are not
    written to, and the subscriber set is the same afterwards: only the
    close listener removes a subscriber. *)
Theorem C2_broadcast_reaches_every_subscriber
        (event : string) (data : json) (s : Server) :
  NoDup (sseClients s) ->
  (forall c, In c (sseClients s) ->
             exists st, streams s !! c = Some st /\ sink st <> Throwing) ->
  exists s',
    sseBroadcast event data s = (Normal tt, s')
    /\ sseClients s' = sseClients s
    /\ (forall c st, In c (sseClients s) -> streams s !! c = Some st ->
                     streams s' !! c = Some (delivered event data st))
    /\ (forall c, ~ In c (sseClients s) -> streams s' !! c = streams s !! c)
    /\ (forall c, ~ In c (sseClients (snd (on_close c s')))).
Proof.
  intros Hnd Hall.
  destruct (hub_broadcast_delivers (sseClients s) event data (streams s) Hnd Hall)
    as (m' & Hrun & Hin & Hout).
  exists (set_streams (fun _ => m') s).
  rewrite sseBroadcast_lift. unfold lift. rewrite Hrun. cbn [fst snd].
  repeat split; try assumption.
  intros c. cbn. apply set_delete_spec.
Qed.

Lemma C2_broadcast_reaches_every_subscriber_witness :
  exists s',
    sseBroadcast "reload" (JObj [("t", JNum 5)]) live_hub = (Normal tt, s')
    /\ sseClients s' = sseClients live_hub
    /\ (forall c st, In c (sseClients live_hub) -> streams live_hub !! c = Some st ->
                     streams s' !! c = Some (delivered "reload" (JObj [("t", JNum 5)]) st))
    /\ (forall c, ~ In c (sseClients live_hub) -> streams s' !! c = streams live_hub !! c)
    /\ (forall c, ~ In c (sseClients (snd (on_close c s')))).
Proof.
  apply (C2_broadcast_reaches_every_subscriber "reload" (JObj [("t", JNum 5)]) live_hub).
  - apply NoDup_cons. split; [|apply NoDup_singleton].
    rewrite list_elem_of_In. cbn. intuition discriminate.
  - intros c [<-|[<-|[]]]; eexists; (split; [vm_compute; reflexivity|discriminate]).
Defined.

(** C2 (as stated) fails: the one subscriber of [dead_hub] does not take the
    write, and after the broadcast it is still in the subscriber set. *)
Lemma C2_counterexample_dead_subscriber_kept :
  (exists st, streams dead_hub !! 7%nat = Some st /\ sink st = Dropping)
  /\ sseBroadcast "reload" (JObj [("t", JNum 0)]) dead_hub = (Normal tt, dead_hub)
  /\ In 7%nat (sseClients (snd (sseBroadcast "reload" (JObj [("t", JNum 0)]) dead_hub))).
Proof.
  split; [eexists; split; vm_compute; reflexivity|].
  split; [vm_compute; reflexivity|]. vm_compute. now left.
Qed.

(** The loop has no handler of its own: a write that raises ends the
    broadcast, and the subscribers after it are not written to. *)
Lemma sseBroadcast_raise_propagates :
  fst (sseBroadcast "reload" (JObj [("t", JNum 0)]) mixed_hub)
    = Throw {| message := "write failed" |}
  /\ streams (snd (sseBroadcast "reload" (JObj [("t", JNum 0)]) mixed_hub))
     = streams mixed_hub.
Proof. split; vm_compute; reflexivity. Qed.

(** ** The reload scheduler *)

Lemma run_due_quiet (t : Z) (pending : list (nat * Z)) (s : Server) :
  (forall x, In x pending -> t < snd x) -> run_due t pending s = (Normal tt, s).
Proof.
  induction pending as [|[h d] l IH]; intros H; [reflexivity|].
  cbn [run_due]. pose proof (H (h, d) (or_introl eq_refl)) as Hd. cbn in Hd.
  destruct (d <=? t) eqn:E; [apply Z.leb_le in E; lia|].
  apply IH. intros x Hx. apply H. now right.
Qed.

Lemma advance_quiet (t : Z) (s : Server) :
  (forall x, In x (timers s) -> t < snd x) -> advance t s = (Normal tt, set_now t s).
Proof.
  intros H. unfold advance, bind, gets. rewrite (run_due_quiet t (timers s) s H).
  reflexivity.
Qed.

Lemma filter_all_out {A} (f : A -> bool) (l : list A) :
  (forall x, In x l -> f x = false) -> List.filter f l = [].
Proof.
  induction l as [|a l IH]; intros H; [reflexivity|].
  cbn. rewrite (H a (or_introl eq_refl)). apply IH. intros x Hx. apply H. now right.
Qed.

(** Each call cancels the pending timer and starts a new one: when every
    pending timer is the one [reloadTimer] names, exactly the new timer is
    pending afterwards. *)
Lemma scheduleReload_replaces (s : Server) :
  (forall x, In x (timers s) -> reloadTimer s = Some (fst x)) ->
  timers (snd (scheduleReload s)) = [(nextTimer s, now s + 200)].
Proof.
  intros H. rewrite scheduleReload_timers.
  rewrite filter_all_out; [reflexivity|].
  intros x Hx. rewrite (H x Hx). now rewrite Nat.eqb_refl.
Qed.

(** A burst leaves one timer pending, due 200 ms after its last call, and
    has written to no stream. *)
Lemma notify_at_burst (ts : list Z) (t0 : Z) (s : Server) :
  (forall x, In x (timers s) -> reloadTimer s = Some (fst x) /\ t0 < snd x) ->
  burst 200 t0 ts ->
  exists s',
    notify_at (t0 :: ts) s = (Normal tt, s')
    /\ (exists h, timers s' = [(h, last_time t0 ts + 200)] /\ reloadTimer s' = Some h)
    /\ now s' = last_time t0 ts
    /\ streams s' = streams s /\ sseClients s' = sseClients s /\ console s' = console s.
Proof.
  revert t0 s. induction ts as [|t1 ts IH]; intros t0 s Hq Hb.
  - cbn [notify_at]. unfold bind. rewrite advance_quiet by (intros x Hx; now apply Hq).
    rewrite scheduleReload_eq. cbn [ret].
    exists (snd (scheduleReload (set_now t0 s))). split; [reflexivity|].
    destruct (scheduleReload_frame (set_now t0 s)) as (Hc & Hs & Hl & Hn).
    split; [|cbn [last_time]; rewrite Hn, Hs, Hc, Hl; auto].
    exists (nextTimer s). split; [|apply (scheduleReload_reloadTimer (set_now t0 s))].
    rewrite (scheduleReload_replaces (set_now t0 s)); [reflexivity|].
    intros x Hx. now apply Hq.
  - destruct Hb as [Ht Hb].
    change (notify_at (t0 :: t1 :: ts)) with
      (bind (advance t0) (fun _ => bind scheduleReload (fun _ => notify_at (t1 :: ts)))).
    unfold bind at 1. rewrite advance_quiet by (intros x Hx; now apply Hq).
    unfold bind at 1. rewrite scheduleReload_eq.
    set (s1 := snd (scheduleReload (set_now t0 s))).
    assert (timers s1 = [(nextTimer s, t0 + 200)]) as Ht1.
    { unfold s1. rewrite (scheduleReload_replaces (set_now t0 s)); [reflexivity|].
      intros x Hx. now apply Hq. }
    assert (reloadTimer s1 = Some (nextTimer s)) as Hr1
      by apply (scheduleReload_reloadTimer (set_now t0 s)).
    destruct (scheduleReload_frame (set_now t0 s)) as (Hc & Hs & Hl & Hn).
    destruct (IH t1 s1) as (s' & Hrun & Hpend & Hnow & Hs' & Hc' & Hl').
    { intros x Hx. rewrite Ht1 in Hx. destruct Hx as [<-|[]]. cbn. split; [assumption|lia]. }
    { assumption. }
    exists s'. split; [assumption|]. split; [assumption|]. split; [assumption|].
    fold s1 in Hc, Hs, Hl. rewrite Hs', Hc', Hl', Hs, Hc, Hl. auto.
Qed.

Lemma reload_callback_lift (s : Server) :
  reload_callback s
  = lift (hub_broadcast (sseClients s) "reload" (JObj [("t", JNum (now s))])) s.
Proof. unfold reload_callback, bind, gets. apply sseBroadcast_lift. Qed.

(** The event loop reaching a single timer that is due. *)
Lemma advance_fires (T d : Z) (h : nat) (s : Server) :
  timers s = [(h, d)] -> d <= T ->
  advance T s
  = match reload_callback
            (set_timers (List.filter (fun x => negb (Nat.eqb (fst x) h))) (set_now d s)) with
    | (Normal _, s') => (Normal tt, set_now T s')
    | (Throw e, s') => (Throw e, s')
    end.
Proof.
  intros Ht Hd. unfold advance, bind at 1, gets. rewrite Ht. cbn [run_due].
  replace (d <=? T) with true by (symmetry; now apply Z.leb_le).
  unfold bind, modify, ret.
  destruct (reload_callback _) as [[[]|e] s']; reflexivity.
Qed.

(** Calls of [scheduleReload] at [t0], then at the times [ts], each less
    than 200 ms after the one before, followed by the event loop running to
    any time [T] at least 200 ms after the last call, have the effect of one
    reload broadcast made at the last call time plus 200: same outcome, same
    streams.  After the calls one timer is pending, due then; at the end none
    is. *)
Lemma burst_runs_one_callback (s : Server) (t0 : Z) (ts : list Z) (T : Z) :
  timers s = [] ->
  burst 200 t0 ts ->
  last_time t0 ts + 200 <= T ->
  (exists h, timers (snd (notify_at (t0 :: ts) s)) = [(h, last_time t0 ts + 200)]
             /\ reloadTimer (snd (notify_at (t0 :: ts) s)) = Some h)
  /\ fst (bind (notify_at (t0 :: ts)) (fun _ => advance T) s)
     = fst (reload_callback (set_now (last_time t0 ts + 200) s))
  /\ streams (snd (bind (notify_at (t0 :: ts)) (fun _ => advance T) s))
     = streams (snd (reload_callback (set_now (last_time t0 ts + 200) s)))
  /\ sseClients (snd (bind (notify_at (t0 :: ts)) (fun _ => advance T) s)) = sseClients s
  /\ console (snd (bind (notify_at (t0 :: ts)) (fun _ => advance T) s)) = console s
  /\ timers (snd (bind (notify_at (t0 :: ts)) (fun _ => advance T) s)) = [].
Proof.
  intros Hempty Hb HT.
  destruct (notify_at_burst ts t0 s) as (s' & Hrun & (h & Ht & Hr) & Hnow & Hs & Hc & Hl).
  { rewrite Hempty. intros x []. }
  { assumption. }
  rewrite Hrun. cbn [snd]. split; [eauto|].
  unfold bind. rewrite Hrun, (advance_fires T _ h s' Ht HT).
  set (d := last_time t0 ts + 200).
  set (s2 := set_timers _ (set_now d s')).
  assert (timers s2 = []) as Ht2.
  { unfold s2. cbn. rewrite Ht. cbn. now rewrite Nat.eqb_refl. }
  rewrite !reload_callback_lift. unfold lift.
  change (sseClients s2) with (sseClients s'). change (streams s2) with (streams s').
  change (now s2) with d. change (now (set_now d s)) with d.
  change (sseClients (set_now d s)) with (sseClients s).
  change (streams (set_now d s)) with (streams s).
  rewrite Hc, Hs.
  destruct (hub_broadcast (sseClients s) "reload" (JObj [("t", JNum d)]) (streams s))
    as [[[]|e] m'] eqn:E; cbn; rewrite ?Ht2, ?Hc, ?Hl; auto.
Qed.

(** Three calls at 0, 50 and 100 ms: the live subscriber has received one
    reload event, stamped 300. *)
Example burst_of_three :
  written <$> (streams (snd (bind (notify_at [0; 50; 100]) (fun _ => advance 1000) live_hub))
               !! 1%nat)
  = Some ["event: reload" +:+ LF; json_text "data: {'t':300}" +:+ LF +:+ LF].
Proof. vm_compute. reflexivity. Qed.

(** Two calls 250 ms apart are two bursts: two reload events. *)
Example two_bursts :
  written <$> (streams (snd (bind (notify_at [0; 250]) (fun _ => advance 1000) live_hub))
               !! 1%nat)
  = Some ["event: reload" +:+ LF; json_text "data: {'t':200}" +:+ LF +:+ LF;
          "event: reload" +:+ LF; json_text "data: {'t':450}" +:+ LF +:+ LF].
Proof. vm_compute. reflexivity. Qed.

(** ** Fetching and normalising items *)

Section ItemFacts.

Variable DB_ID : option string.
Variable query : QueryArgs -> completion QueryResponse.

Lemma fetch_loop_follows (c c' : option string) (rs : list QueryResponse) :
  follows DB_ID query c rs c' ->
  forall (fuel : nat) (items : list Item),
    fetch_loop DB_ID query (length rs + fuel) items c
    = fetch_loop DB_ID query fuel (items ++ concat (map (page_items) rs)) c'.
Proof.
  induction 1 as [c|c r rs c' Hq Hmore _ IH]; intros fuel items.
  - cbn. now rewrite app_nil_r.
  - cbn [length Nat.add fetch_loop]. rewrite Hq, Hmore, IH.
    cbn [map concat]. now rewrite app_assoc.
Qed.

Lemma fetch_aborts (rs : list QueryResponse) (c : option string) (e : Exn) (fuel : nat) :
  follows DB_ID query None rs c ->
  query (query_args DB_ID c) = Throw e ->
  (length rs < fuel)%nat ->
  fetchAllItems DB_ID query fuel = Some (Throw e).
Proof.
  intros Hf Hq Hfuel. unfold fetchAllItems.
  replace fuel with (length rs + S (fuel - S (length rs)))%nat by lia.
  rewrite (fetch_loop_follows _ _ _ Hf). cbn [fetch_loop]. now rewrite Hq.
Qed.

Lemma fetch_completes (rs : list QueryResponse) (c : option string)
      (final : QueryResponse) (fuel : nat) :
  follows DB_ID query None rs c ->
  query (query_args DB_ID c) = Normal final ->
  env_truthy (following final) = false ->
  (length rs < fuel)%nat ->
  fetchAllItems DB_ID query fuel
  = Some (Normal (concat (map page_items (rs ++ [final])))).
Proof.
  intros Hf Hq Hstop Hfuel. unfold fetchAllItems.
  replace fuel with (length rs + S (fuel - S (length rs)))%nat by lia.
  rewrite (fetch_loop_follows _ _ _ Hf). cbn [fetch_loop]. rewrite Hq, Hstop.
  rewrite map_app, concat_app. cbn. now rewrite app_nil_r.
Qed.

Lemma follows_snoc (c c' : option string) (rs : list QueryResponse) (r : QueryResponse) :
  follows DB_ID query c rs c' ->
  query (query_args DB_ID c') = Normal r ->
  env_truthy (following r) = true ->
  follows DB_ID query c (rs ++ [r]) (following r).
Proof.
  induction 1 as [c|c r0 rs c' Hq Hmore _ IH]; intros Hr Hm.
  - cbn. econstructor; [eassumption|assumption|constructor].
  - cbn. econstructor; [eassumption|assumption|]. now apply IH.
Qed.

(** Every normal return of the loop comes from such a walk. *)
Lemma fetch_loop_inv (fuel : nat) :
  forall (c0 c : option string) (rs : list QueryResponse) (items : list Item),
    follows DB_ID query c0 rs c ->
    fetch_loop DB_ID query fuel (concat (map page_items rs)) c = Some (Normal items) ->
    exists rs' c' final,
      follows DB_ID query c0 rs' c'
      /\ query (query_args DB_ID c') = Normal final
      /\ env_truthy (following final) = false
      /\ items = concat (map page_items (rs' ++ [final])).
Proof.
  induction fuel as [|fuel IH]; intros c0 c rs items Hf Hrun; [discriminate|].
  cbn [fetch_loop] in Hrun.
  destruct (query (query_args DB_ID c)) as [r|e] eqn:Hq; [|discriminate].
  destruct (env_truthy (following r)) eqn:Hmore.
  - apply (IH c0 (following r) (rs ++ [r]) items).
    + now apply (follows_snoc c0 c rs r).
    + rewrite map_app, concat_app. cbn [map concat]. now rewrite app_nil_r.
  - injection Hrun as <-. exists rs, c, r. repeat split; try assumption.
    rewrite map_app, concat_app. cbn. now rewrite app_nil_r.
Qed.

Lemma page_items_named (r : QueryResponse) (x : Item) :
  In x (page_items r) <-> (exists p, In p (results r) /\ pageToItem p = x) /\ name x <> "".
Proof.
  unfold page_items. rewrite filter_In, in_map_iff.
  assert (str_truthy (name x) = true <-> name x <> "") as ->
    by (destruct (name x); cbn; split; congruence).
  split; intros [(p & H1 & H2) H3]; (split; [exists p; tauto|assumption]).
Qed.

End ItemFacts.

Lemma continue_iff (r : QueryResponse) :
  env_truthy (following r) = true
  <-> has_more r = true /\ exists c, next_cursor r = Some c /\ c <> "".
Proof.
  unfold following. split.
  - intros H. destruct (has_more r); [|discriminate].
    destruct (next_cursor r) as [[|a k]|]; try discriminate.
    split; [reflexivity|]. eexists. split; [reflexivity|discriminate].
  - intros [-> (k & -> & Hk)]. destruct k; [contradiction|reflexivity].
Qed.

(** C6: when the store answers a number of pages and then rejects the
    request for the next one, [fetchAllItems] (given fuel for those requests)
    completes by raising that rejection, none of the items of the pages
    already fetched being returned, and the items route answers 500 with
    [error] and [detail]; and whenever [fetchAllItems] returns items the
    route answers 200 with exactly those items. *)
Theorem C6_failed_page_aborts_fetch
        (DB_ID : option string) (query : QueryArgs -> completion QueryResponse)
        (rs : list QueryResponse) (c : option string) (e : Exn) (fuel : nat) :
  follows DB_ID query None rs c ->
  query (query_args DB_ID c) = Throw e ->
  (length rs < fuel)%nat ->
  fetchAllItems DB_ID query fuel = Some (Throw e)
  /\ (exists route,
        items_route DB_ID query fuel = Some route
        /\ forall s, route s
             = (Normal {| status := 500;
                          payload := JObj [("error", JStr "notion query failed");
                                           ("detail", JStr (message e))] |},
                set_console (fun l => l ++ [(ErrorLevel, message e)]) s))
  /\ (forall (query' : QueryArgs -> completion QueryResponse) (fuel' : nat)
             (items : list Item),
        fetchAllItems DB_ID query' fuel' = Some (Normal items) ->
        exists route,
          items_route DB_ID query' fuel' = Some route
          /\ forall s, route s
               = (Normal {| status := 200;
                            payload := JObj [("items", JArr (map item_json items))] |}, s)).
Proof.
  intros Hf Hq Hfuel.
  pose proof (fetch_aborts DB_ID query rs c e fuel Hf Hq Hfuel) as Hab.
  split; [assumption|]. split.
  - unfold items_route. rewrite Hab. eexists. split; [reflexivity|]. reflexivity.
  - intros query' fuel' items Hok. unfold items_route. rewrite Hok.
    eexists. split; reflexivity.
Qed.

Lemma follows_first_page (query : QueryArgs -> completion QueryResponse) :
  query (query_args (Some "db") None) = Normal first_page ->
  follows (Some "db") query None [first_page] (Some "cursor-2").
Proof.
  intros H. apply (follows_cons _ _ None first_page [] (Some "cursor-2") H eq_refl).
  apply (follows_nil _ _ (Some "cursor-2")).
Defined.

Lemma C6_failed_page_aborts_fetch_witness :
  fetchAllItems (Some "db") failing_store 5
  = Some (Throw {| message := "request timed out" |}).
Proof.
  apply (C6_failed_page_aborts_fetch (Some "db") failing_store [first_page]
           (Some "cursor-2") {| message := "request timed out" |} 5).
  - apply follows_first_page. reflexivity.
  - reflexivity.
  - cbn. lia.
Defined.

(** C8: each request asks for 100 records; when the store answers a number
    of pages that each carry [has_more] and a non-empty [next_cursor], and
    then a page that does not, [fetchAllItems] (given fuel for those
    requests) returns the normalised, named records of all these pages,
    page after page and in the order of each page; the loop goes on exactly
    on [has_more] with a non-empty cursor; and every list it returns arises
    in this way. *)
Theorem C8_fetch_concatenates_pages
        (DB_ID : option string) (query : QueryArgs -> completion QueryResponse)
        (rs : list QueryResponse) (c : option string) (final : QueryResponse) (fuel : nat) :
  follows DB_ID query None rs c ->
  query (query_args DB_ID c) = Normal final ->
  env_truthy (following final) = false ->
  (length rs < fuel)%nat ->
  fetchAllItems DB_ID query fuel
    = Some (Normal (concat (map (fun r => List.filter (fun x => str_truthy (name x))
                                            (map pageToItem (results r)))
                                (rs ++ [final]))))
  /\ (forall cursor, page_size (query_args DB_ID cursor) = 100
                     /\ start_cursor (query_args DB_ID cursor) = cursor)
  /\ (forall r, env_truthy (following r) = true
                <-> has_more r = true /\ exists c, next_cursor r = Some c /\ c <> "")
  /\ (forall fuel' items,
        fetchAllItems DB_ID query fuel' = Some (Normal items) ->
        exists rs' c' final',
          follows DB_ID query None rs' c'
          /\ query (query_args DB_ID c') = Normal final'
          /\ env_truthy (following final') = false
          /\ items = concat (map page_items (rs' ++ [final']))).
Proof.
  intros Hf Hq Hstop Hfuel. split; [|split; [|split]].
  - apply (fetch_completes DB_ID query rs c final fuel); assumption.
  - intros cursor. split; reflexivity.
  - apply continue_iff.
  - intros fuel' items Hrun.
    apply (fetch_loop_inv DB_ID query fuel' None None [] items); [constructor|exact Hrun].
Qed.

Lemma C8_fetch_concatenates_pages_witness :
  fetchAllItems (Some "db") two_page_store 2
  = Some (Normal (concat (map (fun r => List.filter (fun x => str_truthy (name x))
                                          (map pageToItem (results r)))
                              ([first_page] ++ [second_page])))).
Proof.
  apply (C8_fetch_concatenates_pages (Some "db") two_page_store [first_page]
           (Some "cursor-2") second_page 2).
  - apply follows_first_page. reflexivity.
  - reflexivity.
  - reflexivity.
  - cbn. lia.
Defined.

(** The two-page store: the blank name and the split title are dropped, the
    fallback title is kept, trimmed, and the order is that of the pages. *)
Example two_pages_names :
  option_map (fun r => match r with Normal l => map (fun x => (id x, name x)) l | Throw _ => [] end)
             (fetchAllItems (Some "db") two_page_store 2)
  = Some [("a", "Alpha"); ("p-fallback", "Plan"); ("c", "Gamma")].
Proof. vm_compute. reflexivity. Qed.

(** 150 records on two pages, three of them unnamed: 147 items. *)
Example large_store_count :
  option_map (fun r => match r with Normal l => length l | Throw _ => O end)
             (fetchAllItems None large_store 2)
  = Some 147%nat.
Proof. vm_compute. reflexivity. Qed.

Lemma name_pageToItem (p : Page) (props : gmap string Property) :
  properties p = Some props -> name (pageToItem p) = trim (first_text (title_of props)).
Proof. intros H. unfold pageToItem. rewrite H. reflexivity. Qed.

Lemma fetch_loop_named (DB_ID : option string)
      (query : QueryArgs -> completion QueryResponse) (fuel : nat) :
  forall (acc : list Item) (c : option string) (items : list Item),
    List.Forall (fun x => name x <> "") acc ->
    fetch_loop DB_ID query fuel acc c = Some (Normal items) ->
    List.Forall (fun x => name x <> "") items.
Proof.
  induction fuel as [|fuel IH]; intros acc c items Hacc Hrun; [discriminate|].
  cbn [fetch_loop] in Hrun.
  destruct (query (query_args DB_ID c)) as [r|e]; [|discriminate].
  assert (List.Forall (fun x => name x <> "") (acc ++ page_items r)) as Hacc'.
  { apply List.Forall_app. split; [assumption|].
    apply List.Forall_forall. intros x Hx. now apply page_items_named in Hx. }
  destruct (env_truthy (following r)); [now apply (IH _ _ _ Hacc' Hrun)|].
  now injection Hrun as <-.
Qed.

Lemma join_empty_cons (x : string) (l : list string) : join "" (x :: l) = x +:+ join "" l.
Proof.
  destruct l as [|y l]; cbn [join]; [|reflexivity].
  induction x as [|a x IH]; [reflexivity|].
  change (String a x +:+ "") with (String a (x +:+ "")). now rewrite <- IH.
Qed.

(** The split title gives no name, the same fragments as rich text give
    their concatenation. *)
Example split_title_fields :
  name (pageToItem split_title_page) = ""
  /\ upper (pageToItem split_title_page) = Some "Later"
  /\ ~ In (pageToItem split_title_page) (page_items second_page).
Proof.
  split; [vm_compute; reflexivity|]. split; [vm_compute; reflexivity|].
  intros H. apply page_items_named in H as [_ H]. apply H. vm_compute. reflexivity.
Qed.
(** ** Further properties of the webhook route *)

Lemma notion_webhook_open (secret : option string) (req : Request) (s : Server) :
  env_truthy secret = false ->
  notion_webhook secret req s
  = if truthy (body req) && opt_truthy (member (body req) "verification_token")
    then (Normal challenge_response,
          set_console (fun c =>
            ((c ++ [(LogLevel, LF +:+ "[Notion Webhook] verification_token received:")])
               ++ [(LogLevel, match member (body req) "verification_token" with
                              | Some tok => display tok
                              | None => "undefined"
                              end)])
              ++ [(LogLevel, verify_hint)]) s)
    else (Normal ok_response, snd (scheduleReload s)).
Proof.
  intros Hs. unfold notion_webhook, try_catch, webhook_try. rewrite Hs.
  destruct (truthy (body req) && opt_truthy (member (body req) "verification_token")).
  - reflexivity.
  - cbn [andb]. unfold bind at 1. cbn [ret]. unfold bind. rewrite scheduleReload_eq.
    reflexivity.
Qed.

(** X2: whatever the configuration and the request, the route either gives
    the accepting response 200 [{ok:true}] and has run [scheduleReload], or
    gives another response, of status 200, 202 or 500, and leaves the timers
    as they were; in no case does it change the streams or the subscriber
    set. *)
Theorem reload_only_when_accepted (secret : option string) (req : Request) (s : Server) :
  (notion_webhook secret req s = (Normal ok_response, snd (scheduleReload s))
   \/ (exists resp,
         fst (notion_webhook secret req s) = Normal resp
         /\ resp <> ok_response
         /\ (status resp = 200 \/ status resp = 202 \/ status resp = 500)
         /\ timers (snd (notion_webhook secret req s)) = timers s
         /\ reloadTimer (snd (notion_webhook secret req s)) = reloadTimer s))
  /\ streams (snd (notion_webhook secret req s)) = streams s
  /\ sseClients (snd (notion_webhook secret req s)) = sseClients s.
Proof.
  destruct (scheduleReload_frame s) as (Hc & Hst & _ & _).
  destruct (env_truthy secret) eqn:Hs.
  - destruct secret as [k|]; [|discriminate]. cbn in Hs.
    rewrite (notion_webhook_secret k req s Hs). cbv zeta.
    destruct (Nat.eqb (str_length _) _);
      [destruct (Nat.eqb _ _); [destruct (buffer_eqb _ _)|]|].
    + split; [left; reflexivity|]. cbn [snd]. auto.
    + split; [right; exists mismatch_response; cbn; repeat split; auto; discriminate|].
      split; reflexivity.
    + split; [right; exists error_response; cbn; repeat split; auto; discriminate|].
      split; reflexivity.
    + split; [right; exists mismatch_response; cbn; repeat split; auto; discriminate|].
      split; reflexivity.
  - rewrite (notion_webhook_open secret req s Hs).
    destruct (truthy (body req) && opt_truthy (member (body req) "verification_token")).
    + split; [right; exists challenge_response; cbn; repeat split; auto; discriminate|].
      split; reflexivity.
    + split; [left; reflexivity|]. cbn [snd]. auto.
Qed.

(** X3: a secret set to the empty string is no secret: the route behaves
    as if the variable were not set at all, so no signature is checked. *)
Theorem empty_secret_is_no_secret (req : Request) (s : Server) :
  notion_webhook (Some "") req s = notion_webhook None req s.
Proof.
  rewrite (notion_webhook_open (Some "") req s eq_refl).
  rewrite (notion_webhook_open None req s eq_refl). reflexivity.
Qed.

(** X4: with a secret configured, the route answers 500 [{ok:false}]
    exactly when the signature header has as many code units as the expected
    header and holds a code unit above U+007F. *)
Theorem internal_error_iff (k : string) (req : Request) (s : Server) :
  str_truthy k = true ->
  (fst (notion_webhook (Some k) req s) = Normal error_response
   <-> str_length (signature_header req) = str_length (expected_signature k (body req))
       /\ wide (signature_header req) <> O).
Proof.
  intros Hk. rewrite (notion_webhook_secret k req s Hk). cbv zeta.
  rewrite !Buffer_from_length.
  assert (wide (expected_signature k (body req)) = O) as -> by apply wide_signature.
  unfold str_length.
  destruct (Nat.eqb (String.length (signature_header req)) _) eqn:El.
  - apply Nat.eqb_eq in El. rewrite El.
    destruct (Nat.eqb _ _) eqn:Eb.
    + apply Nat.eqb_eq in Eb.
      destruct (buffer_eqb _ _); cbn; (split; [discriminate|intros [_ H]; lia]).
    + apply Nat.eqb_neq in Eb. cbn. split; [intros _; split; [reflexivity|lia]|reflexivity].
  - apply Nat.eqb_neq in El. cbn. split; [discriminate|intros [H _]; contradiction].
Qed.

Lemma internal_error_iff_witness :
  fst (notion_webhook (Some "k") high_byte_request boot) = Normal error_response.
Proof.
  apply (proj2 (internal_error_iff "k" high_byte_request boot eq_refl)).
  split; vm_compute; [reflexivity|discriminate].
Defined.

Lemma be_bytes_length (n : nat) (x : Z) : length (SHA256.be_bytes n x) = n.
Proof. unfold SHA256.be_bytes. now rewrite length_map, length_rev, length_seq. Qed.

Lemma sha256_length (msg : Buffer) : length (SHA256.sha256 msg) = 32%nat.
Proof.
  unfold SHA256.sha256, SHA256.digest_bytes.
  generalize (SHA256.blocks (length (SHA256.pad msg) / 64) SHA256.init (SHA256.pad msg)).
  intros h. cbn [flat_map]. rewrite !length_app, !be_bytes_length. reflexivity.
Qed.

Lemma hex_length (bs : Buffer) : String.length (hex bs) = (2 * length bs)%nat.
Proof. induction bs as [|b bs IH]; [reflexivity|]. cbn [hex String.length length]. lia. Qed.

Lemma append_length (a b : string) :
  String.length (a +:+ b) = (String.length a + String.length b)%nat.
Proof.
  induction a as [|c a IH]; [reflexivity|].
  change (String c a +:+ b) with (String c (a +:+ b)). cbn [String.length]. now rewrite IH.
Qed.

(** X5: the expected header always has 71 code units, all below U+0080
    ([sha256=] and 64 hexadecimal digits), so with a secret configured every
    request whose signature header is not 71 characters long is answered 202
    signature_mismatch. *)
Theorem only_71_characters_can_match (k : string) (req : Request) (s : Server) :
  str_truthy k = true ->
  str_length (signature_header req) <> 71%nat ->
  str_length (expected_signature k (body req)) = 71%nat
  /\ wide (expected_signature k (body req)) = O
  /\ notion_webhook (Some k) req s = (Normal mismatch_response, warned s).
Proof.
  intros Hk Hl.
  assert (str_length (expected_signature k (body req)) = 71%nat) as H71.
  { unfold str_length, expected_signature, hmac_sha256_hex, SHA256.hmac.
    rewrite append_length, hex_length, sha256_length. reflexivity. }
  split; [assumption|]. split; [apply wide_signature|].
  apply notion_webhook_mismatch; [assumption| |left; congruence].
  intros E. rewrite E in Hl. contradiction.
Qed.

Lemma only_71_characters_can_match_witness :
  notion_webhook (Some "k") unsigned_request boot = (Normal mismatch_response, warned boot).
Proof.
  apply (only_71_characters_can_match "k" unsigned_request boot eq_refl).
  vm_compute. discriminate.
Defined.

(** ** Further properties of the scheduler *)

Lemma reload_callback_frame (s : Server) :
  sseClients (snd (reload_callback s)) = sseClients s
  /\ timers (snd (reload_callback s)) = timers s
  /\ reloadTimer (snd (reload_callback s)) = reloadTimer s
  /\ console (snd (reload_callback s)) = console s.
Proof. rewrite reload_callback_lift. cbn. auto. Qed.

Lemma pending_ok_scheduleReload (s : Server) :
  pending_ok s -> pending_ok (snd (scheduleReload s)).
Proof.
  intros H. unfold pending_ok in *.
  rewrite scheduleReload_replaces, scheduleReload_reloadTimer; [reflexivity|].
  destruct (timers s) as [|[h d] [|y l]]; [intros x []| |contradiction].
  intros x [<-|[]]. exact H.
Qed.

Lemma pending_ok_advance (t : Z) (s : Server) :
  pending_ok s -> pending_ok (snd (advance t s)).
Proof.
  intros H. unfold pending_ok in H.
  destruct (timers s) as [|[h d] [|y l]] eqn:Ht; [| |contradiction].
  - rewrite advance_quiet by (rewrite Ht; intros x []).
    unfold pending_ok. cbn. now rewrite Ht.
  - destruct (Z.leb_spec d t) as [Hd|Hd].
    + rewrite (advance_fires t d h s Ht Hd).
      set (s1 := set_timers _ (set_now d s)).
      assert (timers s1 = []) as H1.
      { unfold s1. cbn. rewrite Ht. cbn. now rewrite Nat.eqb_refl. }
      destruct (reload_callback_frame s1) as (_ & Htm & _ & _).
      destruct (reload_callback s1) as [[[]|e] s'] eqn:E; cbn [snd] in *;
        unfold pending_ok; cbn; now rewrite Htm, H1.
    + rewrite advance_quiet by (rewrite Ht; intros x [<-|[]]; exact Hd).
      unfold pending_ok. cbn. now rewrite Ht.
Qed.

Lemma reload_only_when_accepted_aux (secret : option string) (req : Request) (s : Server) :
  notion_webhook secret req s = (Normal ok_response, snd (scheduleReload s))
  \/ (timers (snd (notion_webhook secret req s)) = timers s
      /\ reloadTimer (snd (notion_webhook secret req s)) = reloadTimer s).
Proof.
  destruct (env_truthy secret) eqn:Hs.
  - destruct secret as [k|]; [|discriminate]. cbn in Hs.
    rewrite (notion_webhook_secret k req s Hs). cbv zeta.
    destruct (Nat.eqb (str_length _) _);
      [destruct (Nat.eqb _ _); [destruct (buffer_eqb _ _)|]|];
      (left; reflexivity) || (right; split; reflexivity).
  - rewrite (notion_webhook_open secret req s Hs).
    destruct (truthy (body req) && opt_truthy (member (body req) "verification_token"));
      (left; reflexivity) || (right; split; reflexivity).
Qed.

(** X6: at most one timeout is ever pending, and it is the one
    [reloadTimer] names: this holds at start-up and is kept by
    [scheduleReload], by the webhook route on any request, by the event loop
    running to any time, and by the keep-alive broadcast. *)
Theorem single_pending_timer
        (s : Server) (secret : option string) (req : Request) (t : Z) :
  pending_ok s ->
  pending_ok boot
  /\ pending_ok (snd (scheduleReload s))
  /\ pending_ok (snd (notion_webhook secret req s))
  /\ pending_ok (snd (advance t s))
  /\ pending_ok (snd (keepalive_callback s)).
Proof.
  intros H. split; [exact I|]. split; [now apply pending_ok_scheduleReload|].
  split; [|split; [now apply pending_ok_advance|]].
  - destruct (reload_only_when_accepted_aux secret req s) as [E|(Ht & Hr)].
    + rewrite E. now apply pending_ok_scheduleReload.
    + unfold pending_ok in *. now rewrite Ht, Hr.
  - unfold keepalive_callback, bind, gets.
    destruct (sseBroadcast_frame "ping" (JObj [("t", JNum (now s))]) s)
      as (_ & Ht & Hr & _).
    unfold pending_ok in *. now rewrite Ht, Hr.
Qed.

Lemma single_pending_timer_witness :
  pending_ok (snd (notion_webhook None empty_request boot)).
Proof.
  apply (single_pending_timer boot None empty_request 0). exact I.
Defined.

Lemma reloads_at_lift (fs : list Z) (s : Server) :
  fst (reloads_at fs s) = fst (hub_reloads (sseClients s) fs (streams s))
  /\ streams (snd (reloads_at fs s)) = snd (hub_reloads (sseClients s) fs (streams s))
  /\ sseClients (snd (reloads_at fs s)) = sseClients s.
Proof.
  revert s. induction fs as [|t fs IH]; intros s; [cbn; auto|].
  cbn [reloads_at hub_reloads]. unfold bind, hub_then, reload_at.
  rewrite reload_callback_lift. unfold lift.
  change (sseClients (set_now t s)) with (sseClients s).
  change (streams (set_now t s)) with (streams s).
  change (now (set_now t s)) with t.
  destruct (hub_broadcast (sseClients s) "reload" (JObj [("t", JNum t)]) (streams s))
    as [[[]|e] m'] eqn:E; cbn [fst snd]; [|cbn; auto].
  set (s1 := set_streams _ _).
  destruct (IH s1) as (H1 & H2 & H3).
  change (sseClients s1) with (sseClients s) in *. change (streams s1) with m' in *.
  auto.
Qed.

(** A server with one timer pending, due [tp + 200], running on calls at
    [ts] and then to a time [T] past every timer. *)
Lemma pending_run (ts : list Z) :
  forall (tp : Z) (h : nat) (s : Server) (T : Z),
    timers s = [(h, tp + 200)] -> reloadTimer s = Some h ->
    last_time tp ts + 200 <= T ->
    agrees (bind (notify_at ts) (fun _ => advance T) s)
           (hub_reloads (sseClients s) (fire_times 200 (tp :: ts)) (streams s))
           (sseClients s).
Proof.
  induction ts as [|t1 rest IH]; intros tp h s T Ht Hr HT.
  - cbn [notify_at fire_times last_time] in *. unfold bind. cbn [ret].
    rewrite (advance_fires T _ h s Ht HT).
    set (s1 := set_timers _ (set_now (tp + 200) s)).
    rewrite (reload_callback_lift s1). unfold lift.
    change (sseClients s1) with (sseClients s). change (streams s1) with (streams s).
    change (now s1) with (tp + 200). cbn [hub_reloads]. unfold hub_then, agrees.
    destruct (hub_broadcast (sseClients s) "reload" (JObj [("t", JNum (tp + 200))])
                            (streams s)) as [[[]|e] m'] eqn:E; cbn; auto.
  - cbn [last_time] in HT.
    change (notify_at (t1 :: rest)) with
      (bind (advance t1) (fun _ => bind scheduleReload (fun _ => notify_at rest))).
    change (fire_times 200 (tp :: t1 :: rest)) with
      (if tp + 200 <=? t1 then (tp + 200) :: fire_times 200 (t1 :: rest)
       else fire_times 200 (t1 :: rest)).
    destruct (Z.leb_spec (tp + 200) t1) as [Hd|Hd].
    + unfold bind. rewrite (advance_fires t1 _ h s Ht Hd).
      set (s1 := set_timers _ (set_now (tp + 200) s)).
      assert (timers s1 = []) as Ht1.
      { unfold s1. cbn. rewrite Ht. cbn. now rewrite Nat.eqb_refl. }
      rewrite (reload_callback_lift s1). unfold lift.
      change (sseClients s1) with (sseClients s). change (streams s1) with (streams s).
      change (now s1) with (tp + 200). cbn [hub_reloads]. unfold hub_then.
      destruct (hub_broadcast (sseClients s) "reload" (JObj [("t", JNum (tp + 200))])
                              (streams s)) as [[[]|e] m'] eqn:E; cbn [fst snd];
        [|unfold agrees; cbn; auto].
      set (s2 := set_now t1 (set_streams (fun _ => m') s1)).
      rewrite (scheduleReload_eq s2).
      set (s3 := snd (scheduleReload s2)).
      destruct (scheduleReload_frame s2) as (Hc & Hs & _ & _).
      pose proof (IH t1 (nextTimer s2) s3 T) as H.
      fold s3 in Hc, Hs. rewrite Hc, Hs in H.
      change (sseClients s2) with (sseClients s) in H. change (streams s2) with m' in H.
      unfold bind in H. apply H; [|apply scheduleReload_reloadTimer|exact HT].
      unfold s3. rewrite (scheduleReload_replaces s2); [reflexivity|].
      change (timers s2) with (timers s1). rewrite Ht1. intros x [].
    + unfold bind.
      rewrite advance_quiet by (rewrite Ht; intros x [<-|[]]; exact Hd).
      rewrite (scheduleReload_eq (set_now t1 s)).
      set (s3 := snd (scheduleReload (set_now t1 s))).
      destruct (scheduleReload_frame (set_now t1 s)) as (Hc & Hs & _ & _).
      pose proof (IH t1 (nextTimer s) s3 T) as H.
      fold s3 in Hc, Hs. rewrite Hc, Hs in H.
      change (sseClients (set_now t1 s)) with (sseClients s) in H.
      change (streams (set_now t1 s)) with (streams s) in H.
      unfold bind in H.
      apply H; [|apply (scheduleReload_reloadTimer (set_now t1 s))|exact HT].
      unfold s3. rewrite (scheduleReload_replaces (set_now t1 s)); [reflexivity|].
      change (timers (set_now t1 s)) with (timers s). rewrite Ht.
      intros x [<-|[]]. exact Hr.
Qed.

(** For calls of [scheduleReload] at any times in clock order, starting
    with no timer pending and followed by the event loop running past the
    last timer, the outcome and the streams are those of one reload
    broadcast 200 ms after each call that is not followed by another call
    within 200 ms, in that order, and of nothing else. *)
Lemma debounce_runs_callbacks
        (s : Server) (t0 : Z) (ts : list Z) (T : Z) :
  timers s = [] ->
  ascending t0 ts ->
  last_time t0 ts + 200 <= T ->
  fst (bind (notify_at (t0 :: ts)) (fun _ => advance T) s)
  = fst (reloads_at (fire_times 200 (t0 :: ts)) s)
  /\ streams (snd (bind (notify_at (t0 :: ts)) (fun _ => advance T) s))
     = streams (snd (reloads_at (fire_times 200 (t0 :: ts)) s))
  /\ sseClients (snd (bind (notify_at (t0 :: ts)) (fun _ => advance T) s)) = sseClients s.
Proof.
  intros Hempty _ HT.
  destruct (reloads_at_lift (fire_times 200 (t0 :: ts)) s) as (R1 & R2 & _).
  rewrite R1, R2.
  change (notify_at (t0 :: ts)) with
    (bind (advance t0) (fun _ => bind scheduleReload (fun _ => notify_at ts))).
  unfold bind.
  rewrite advance_quiet by (rewrite Hempty; intros x []).
  rewrite (scheduleReload_eq (set_now t0 s)).
  set (s3 := snd (scheduleReload (set_now t0 s))).
  destruct (scheduleReload_frame (set_now t0 s)) as (Hc & Hs & _ & _).
  pose proof (pending_run ts t0 (nextTimer s) s3 T) as H.
  fold s3 in Hc, Hs. rewrite Hc, Hs in H.
  change (sseClients (set_now t0 s)) with (sseClients s) in H.
  change (streams (set_now t0 s)) with (streams s) in H.
  unfold bind in H.
  apply H; [|apply (scheduleReload_reloadTimer (set_now t0 s))|exact HT].
  unfold s3. rewrite (scheduleReload_replaces (set_now t0 s)); [reflexivity|].
  change (timers (set_now t0 s)) with (timers s). rewrite Hempty. intros x [].
Qed.

(** Five calls in three bursts: three reload events, 200 ms after the last
    call of each burst. *)
Example three_bursts :
  fire_times 200 [0; 50; 400; 450; 1000] = [250; 650; 1200]
  /\ written <$> (streams (snd (bind (notify_at [0; 50; 400; 450; 1000])
                                     (fun _ => advance 2000) live_hub)) !! 1%nat)
     = Some ["event: reload" +:+ LF; json_text "data: {'t':250}" +:+ LF +:+ LF;
             "event: reload" +:+ LF; json_text "data: {'t':650}" +:+ LF +:+ LF;
             "event: reload" +:+ LF; json_text "data: {'t':1200}" +:+ LF +:+ LF].
Proof. split; vm_compute; reflexivity. Qed.

Lemma accepted_webhook (secret : option string) (req : Request) (s : Server) :
  accepted secret req ->
  notion_webhook secret req s = (Normal ok_response, snd (scheduleReload s)).
Proof.
  unfold accepted. intros H.
  destruct secret as [k|]; [destruct (str_truthy k) eqn:Hk|].
  - rewrite (notion_webhook_secret k req s Hk). cbv zeta.
    rewrite H, !Nat.eqb_refl.
    replace (buffer_eqb _ _) with true; [reflexivity|].
    symmetry. now apply buffer_eqb_eq.
  - rewrite (notion_webhook_open (Some k) req s) by (cbn; exact Hk). now rewrite H.
  - rewrite (notion_webhook_open None req s eq_refl). now rewrite H.
Qed.

(** X8: webhook requests that the route accepts, arriving at any times, are
    each answered 200 [{ok:true}] and leave the server in the state that
    calls of [scheduleReload] at those times leave it in; if a timer callback
    raises on the way, it raises in both runs alike. *)
Theorem accepted_webhooks_are_notifications
        (secret : option string) (calls : list (Z * Request)) (s : Server) :
  (forall c, In c calls -> accepted secret (snd c)) ->
  deliver_at secret calls s
  = match notify_at (map fst calls) s with
    | (Normal _, s') => (Normal (map (fun _ => ok_response) calls), s')
    | (Throw e, s') => (Throw e, s')
    end.
Proof.
  revert s. induction calls as [|[t req] rest IH]; intros s Hacc; [reflexivity|].
  cbn [deliver_at map fst notify_at]. unfold bind.
  destruct (advance t s) as [[[]|e] s1]; [|reflexivity].
  rewrite (accepted_webhook secret req s1) by (apply (Hacc (t, req)); now left).
  rewrite IH by (intros c Hc; apply Hacc; now right).
  pose proof (scheduleReload_eq s1) as E.
  destruct (scheduleReload s1) as [c1 s1']. cbn [snd] in *. injection E as ->.
  destruct (notify_at (map fst rest) s1') as [[[]|e] s2]; reflexivity.
Qed.

Lemma accepted_webhooks_are_notifications_witness :
  deliver_at (Some "k") [(0, minified_request); (50, minified_request)] live_hub
  = match notify_at (map fst [(0, minified_request); (50, minified_request)]) live_hub with
    | (Normal _, s') =>
        (Normal (map (fun _ => ok_response) [(0, minified_request); (50, minified_request)]),
         s')
    | (Throw e, s') => (Throw e, s')
    end.
Proof.
  apply (accepted_webhooks_are_notifications (Some "k")
           [(0, minified_request); (50, minified_request)] live_hub).
  intros c [<-|[<-|[]]]; vm_compute; reflexivity.
Defined.

(** Three signed requests at 0, 50 and 100 ms: three accepting responses
    and, once the loop has run, one reload event stamped 300. *)
Example three_signed_webhooks :
  fst (deliver_at (Some "k")
         [(0, minified_request); (50, minified_request); (100, minified_request)] live_hub)
  = Normal [ok_response; ok_response; ok_response]
  /\ written <$> (streams (snd (bind (deliver_at (Some "k")
                      [(0, minified_request); (50, minified_request);
                       (100, minified_request)])
                    (fun _ => advance 1000) live_hub)) !! 1%nat)
     = Some ["event: reload" +:+ LF; json_text "data: {'t':300}" +:+ LF +:+ LF].
Proof. split; vm_compute; reflexivity. Qed.

(** ** Further properties of the broadcast hub *)

Lemma set_add_In (x : nat) (l : list nat) : In x (set_add x l).
Proof.
  unfold set_add. destruct (existsb (Nat.eqb x) l) eqn:E.
  - apply existsb_exists in E as (y & Hy & Exy). apply Nat.eqb_eq in Exy. now subst.
  - apply in_or_app. right. now left.
Qed.

Lemma setHeader_run (res : nat) (n v : string) (s : Server) (st : Stream) :
  streams s !! res = Some st ->
  setHeader res n v s
  = (Normal tt,
     set_streams (fun m => <[res := {| sink := sink st;
                                       sent_headers := sent_headers st ++ [(n, v)];
                                       written := written st |}]> m) s).
Proof. intros H. unfold setHeader, modify, set_streams. now rewrite H. Qed.

Lemma sseHeaders_run (res : nat) (s : Server) (st : Stream) :
  streams s !! res = Some st ->
  sseHeaders res s
  = (Normal tt,
     set_streams (fun m => <[res := {| sink := sink st;
                                       sent_headers := sent_headers st ++ sse_header_list;
                                       written := written st |}]> m) s).
Proof.
  intros H. unfold sseHeaders, bind.
  rewrite (setHeader_run res _ _ s st H).
  erewrite setHeader_run by (cbn; apply lookup_insert_eq).
  erewrite setHeader_run by (cbn; apply lookup_insert_eq).
  cbn [sink sent_headers written]. unfold set_streams. cbn.
  rewrite !insert_insert_eq, <- !app_assoc. reflexivity.
Qed.

(** Whatever the stream does, the route changes the subscriber set by at
    most adding [res], and only when it completes. *)
Lemma stream_route_clients (res : nat) (s : Server) :
  (fst (stream_route res s) = Normal tt
   /\ sseClients (snd (stream_route res s)) = set_add res (sseClients s))
  \/ ((exists e, fst (stream_route res s) = Throw e)
      /\ sseClients (snd (stream_route res s)) = sseClients s).
Proof.
  unfold stream_route, bind.
  assert (exists s1, sseHeaders res s = (Normal tt, s1) /\ sseClients s1 = sseClients s)
    as (s1 & -> & Hc1).
  { unfold sseHeaders, bind, setHeader, modify. eexists. split; reflexivity. }
  rewrite sseSend_lift. unfold lift.
  destruct (hub_send res "hello" (JObj [("ok", JBool true)]) (streams s1))
    as [[[]|e] m']; cbn.
  - left. split; [reflexivity|]. now rewrite Hc1.
  - right. split; [eauto|assumption].
Qed.

(** X9: subscribing.  On a connection whose stream does not raise, the
    route sets the three event-stream headers, sends the [hello] event
    (which a stream that discards writes drops), puts the connection in the
    subscriber set, and touches no other stream and no timer.  On a
    connection whose first write raises, the route raises and the connection
    is not put in the set. *)
Theorem subscribe_registers (res : nat) (s : Server) (st : Stream) :
  streams s !! res = Some st ->
  (sink st <> Throwing ->
   exists s',
     stream_route res s = (Normal tt, s')
     /\ sseClients s' = set_add res (sseClients s)
     /\ In res (sseClients s')
     /\ streams s' !! res
        = Some (delivered "hello" (JObj [("ok", JBool true)])
                  {| sink := sink st;
                     sent_headers := sent_headers st ++ sse_header_list;
                     written := written st |})
     /\ (forall c, c <> res -> streams s' !! c = streams s !! c)
     /\ timers s' = timers s /\ reloadTimer s' = reloadTimer s)
  /\ (sink st = Throwing ->
      (exists e, fst (stream_route res s) = Throw e)
      /\ sseClients (snd (stream_route res s)) = sseClients s).
Proof.
  intros Hst. split.
  - intros Hsink. unfold stream_route, bind.
    rewrite (sseHeaders_run res s st Hst).
    set (st1 := {| sink := sink st; sent_headers := sent_headers st ++ sse_header_list;
                   written := written st |}).
    rewrite sseSend_lift. unfold lift.
    change (streams (set_streams _ s)) with (<[res := st1]> (streams s)).
    rewrite (hub_send_delivers res _ _ (<[res := st1]> (streams s)) st1)
      by (try apply lookup_insert_eq; exact Hsink).
    cbn [fst snd]. eexists. split; [reflexivity|]. cbn.
    split; [reflexivity|]. split; [apply set_add_In|].
    split; [apply lookup_insert_eq|]. split; [|auto].
    intros c Hc. rewrite !lookup_insert_ne by congruence. reflexivity.
  - intros Hsink. destruct (stream_route_clients res s) as [[Hn Hc]|[He Hc]]; [|auto].
    exfalso. revert Hn. unfold stream_route, bind.
    rewrite (sseHeaders_run res s st Hst). rewrite sseSend_lift. unfold lift.
    unfold hub_send, hub_then, hub_write. cbn [streams set_streams].
    rewrite lookup_insert_eq. cbn [sink]. rewrite Hsink. cbn. discriminate.
Qed.

Lemma subscribe_registers_witness :
  exists s',
    stream_route 3%nat fresh_connection = (Normal tt, s')
    /\ sseClients s' = set_add 3%nat (sseClients fresh_connection)
    /\ In 3%nat (sseClients s')
    /\ streams s' !! 3%nat
       = Some (delivered "hello" (JObj [("ok", JBool true)])
                 {| sink := Writable; sent_headers := [] ++ sse_header_list; written := [] |})
    /\ (forall c, c <> 3%nat -> streams s' !! c = streams fresh_connection !! c)
    /\ timers s' = timers fresh_connection /\ reloadTimer s' = reloadTimer fresh_connection.
Proof.
  refine (proj1 (subscribe_registers 3%nat fresh_connection
                   {| sink := Writable; sent_headers := []; written := [] |} _) _).
  - vm_compute. reflexivity.
  - discriminate.
Defined.

Lemma set_delete_NoDup (x : nat) (l : list nat) : NoDup l -> NoDup (set_delete x l).
Proof.
  unfold set_delete. induction l as [|y l IH]; intros H; [constructor|].
  apply NoDup_cons in H as [Hy H]. cbn [List.filter].
  destruct (negb (Nat.eqb x y)); [|now apply IH].
  apply NoDup_cons. split; [|now apply IH].
  intros Hin. apply Hy. apply list_elem_of_In in Hin. apply filter_In in Hin as [Hin _].
  now apply list_elem_of_In.
Qed.

Lemma reload_only_when_accepted_clients (secret : option string) (req : Request) (s : Server) :
  sseClients (snd (notion_webhook secret req s)) = sseClients s.
Proof.
  destruct (reload_only_when_accepted_aux secret req s) as [E|_].
  - rewrite E. apply scheduleReload_frame.
  - destruct (env_truthy secret) eqn:Hs.
    + destruct secret as [k|]; [|discriminate]. cbn in Hs.
      rewrite (notion_webhook_secret k req s Hs). cbv zeta.
      destruct (scheduleReload_frame s) as (Hc & _).
      destruct (Nat.eqb (str_length _) _);
        [destruct (Nat.eqb _ _); [destruct (buffer_eqb _ _)|]|]; cbn [snd]; auto.
    + rewrite (notion_webhook_open secret req s Hs).
      destruct (scheduleReload_frame s) as (Hc & _).
      destruct (truthy (body req) && opt_truthy (member (body req) "verification_token"));
        cbn [snd]; auto.
Qed.

(** X10: the subscriber set never holds a connection twice: subscribing
    (also a second time), closing, broadcasting and handling a webhook all
    keep it free of duplicates. *)
Theorem subscriber_set_has_no_duplicates
        (s : Server) (res : nat) (event : string) (data : json)
        (secret : option string) (req : Request) :
  NoDup (sseClients s) ->
  NoDup (sseClients (snd (stream_route res s)))
  /\ NoDup (sseClients (snd (stream_route res (snd (stream_route res s)))))
  /\ NoDup (sseClients (snd (on_close res s)))
  /\ NoDup (sseClients (snd (sseBroadcast event data s)))
  /\ NoDup (sseClients (snd (notion_webhook secret req s))).
Proof.
  intros H.
  assert (forall s0, NoDup (sseClients s0) -> NoDup (sseClients (snd (stream_route res s0))))
    as Hroute.
  { intros s0 H0. destruct (stream_route_clients res s0) as [[_ ->]|[_ ->]];
      [now apply set_add_NoDup|assumption]. }
  split; [now apply Hroute|]. split; [now apply Hroute, Hroute|].
  split; [now apply set_delete_NoDup|]. split.
  - destruct (sseBroadcast_frame event data s) as (-> & _). assumption.
  - rewrite (reload_only_when_accepted_clients secret req s). assumption.
Qed.

Lemma subscriber_set_has_no_duplicates_witness :
  NoDup (sseClients (snd (stream_route 3%nat fresh_connection))).
Proof.
  apply (subscriber_set_has_no_duplicates fresh_connection 3%nat "reload" JNull
           None empty_request).
  apply NoDup_nil_2.
Defined.

Lemma hub_write_outside (res : nat) (chunk : string) (m : gmap nat Stream) (c : nat) :
  c <> res -> snd (hub_write res chunk m) !! c = m !! c.
Proof.
  intros H. unfold hub_write. destruct (m !! res) as [st|]; [|reflexivity].
  destruct (sink st); cbn; [|reflexivity|reflexivity].
  now rewrite lookup_insert_ne by congruence.
Qed.

Lemma hub_then_outside (a b : hub unit) (m : gmap nat Stream) (c : nat) :
  (forall m0, snd (a m0) !! c = m0 !! c) ->
  (forall m0, snd (b m0) !! c = m0 !! c) ->
  snd (hub_then a b m) !! c = m !! c.
Proof.
  intros Ha Hb. unfold hub_then. pose proof (Ha m) as H.
  destruct (a m) as [[[]|e] m']; cbn in *; [now rewrite Hb|assumption].
Qed.

(** A broadcast, whatever its outcome, writes to no stream outside the
    list it runs over. *)
Lemma hub_broadcast_outside (l : list nat) (event : string) (data : json) (c : nat) :
  ~ In c l -> forall m, snd (hub_broadcast l event data m) !! c = m !! c.
Proof.
  induction l as [|x l IH]; intros Hc m; [reflexivity|].
  cbn [hub_broadcast]. apply hub_then_outside.
  - intros m0. unfold hub_send. apply hub_then_outside;
      intros m1; apply hub_write_outside; intros ->; apply Hc; now left.
  - apply IH. intros H. apply Hc. now right.
Qed.

(** X11: after the close listener of a connection has run, broadcasts no
    longer write to its stream: whatever the event and whatever the other
    subscribers do, the stream is as it was. *)
Theorem closed_subscriber_is_not_written
        (s : Server) (res : nat) (event : string) (data : json) :
  streams (snd (sseBroadcast event data (snd (on_close res s)))) !! res
  = streams s !! res
  /\ ~ In res (sseClients (snd (sseBroadcast event data (snd (on_close res s))))).
Proof.
  split.
  - rewrite sseBroadcast_lift. unfold lift. cbn [snd streams set_streams].
    apply hub_broadcast_outside. cbn. apply set_delete_spec.
  - destruct (sseBroadcast_frame event data (snd (on_close res s))) as (-> & _).
    cbn. apply set_delete_spec.
Qed.

(** ** The text of an event *)

Lemma control_free_append (a b : string) :
  control_free (a +:+ b) = control_free a && control_free b.
Proof.
  unfold control_free, chars. induction a as [|c a IH]; [reflexivity|].
  change (String c a +:+ b) with (String c (a +:+ b)).
  cbn [list_ascii_of_string forallb]. now rewrite IH, andb_assoc.
Qed.

Lemma control_free_escape_unit (c : ascii) : control_free (escape_unit c) = true.
Proof.
  destruct c as [b0 b1 b2 b3 b4 b5 b6 b7].
  destruct b0, b1, b2, b3, b4, b5, b6, b7; reflexivity.
Qed.

Lemma control_free_escape (s : string) : control_free (escape s) = true.
Proof.
  induction s as [|c s IH]; [reflexivity|].
  cbn [escape]. now rewrite control_free_append, control_free_escape_unit, IH.
Qed.

Lemma control_free_quote (s : string) : control_free (quote s) = true.
Proof.
  unfold quote. now rewrite !control_free_append, control_free_escape.
Qed.

Lemma control_free_uint (d : Decimal.uint) :
  control_free (NilEmpty.string_of_uint d) = true.
Proof. induction d; cbn [NilEmpty.string_of_uint]; try reflexivity; exact IHd. Qed.

Lemma control_free_number (n : Z) : control_free (number_to_string n) = true.
Proof.
  assert (forall d, control_free (NilZero.string_of_uint d) = true) as H
    by (intros []; try reflexivity; apply control_free_uint).
  unfold number_to_string, NilZero.string_of_int.
  destruct (Z.to_int n) as [d|d]; [apply H|].
  change (String "-" (NilZero.string_of_uint d)) with ("-" +:+ NilZero.string_of_uint d).
  now rewrite control_free_append, H.
Qed.

Lemma control_free_join (sep : string) (l : list string) :
  control_free sep = true ->
  Forall (fun x => control_free x = true) l ->
  control_free (join sep l) = true.
Proof.
  intros Hsep H. induction H as [|x l Hx Hl IH]; [reflexivity|].
  destruct l as [|y l]; [exact Hx|].
  change (join sep (x :: y :: l)) with (x +:+ sep +:+ join sep (y :: l)).
  now rewrite !control_free_append, Hx, Hsep, IH.
Qed.

Lemma control_free_stringify (j : json) : control_free (stringify j) = true.
Proof.
  revert j. fix IH 1. intros [| [|] | n | s | elems | props].
  - reflexivity.
  - reflexivity.
  - reflexivity.
  - apply control_free_number.
  - apply control_free_quote.
  - cbn [stringify]. rewrite !control_free_append.
    rewrite control_free_join; [reflexivity|reflexivity|].
    induction elems as [|e l IHl]; constructor; [apply IH|exact IHl].
  - cbn [stringify]. rewrite !control_free_append.
    rewrite control_free_join; [reflexivity|reflexivity|].
    induction props as [|[k v] l IHl]; constructor; [|exact IHl].
    cbn [fst snd]. now rewrite !control_free_append, control_free_quote, IH.
Qed.

(** X12: what [sseSend] writes to a stream that takes writes is two
    chunks: a line, and a line followed by an empty line.  For an event name
    without control characters neither line holds a control character,
    whatever the payload: the JSON text of the data never breaks the line. *)
Theorem event_data_is_one_line
        (res : nat) (event : string) (data : json) (s : Server) (st : Stream) :
  streams s !! res = Some st ->
  sink st = Writable ->
  control_free event = true ->
  exists l1 l2,
    control_free l1 = true /\ control_free l2 = true
    /\ written <$> (streams (snd (sseSend res event data s)) !! res)
       = Some (written st ++ [l1 +:+ LF; l2 +:+ LF +:+ LF]).
Proof.
  intros Hst Hsink Hev.
  exists ("event: " +:+ event), ("data: " +:+ stringify data).
  rewrite !control_free_append, Hev, control_free_stringify.
  split; [reflexivity|]. split; [reflexivity|].
  rewrite sseSend_lift. unfold lift. cbn [snd streams set_streams].
  rewrite (hub_send_delivers res event data (streams s) st Hst)
    by (rewrite Hsink; discriminate).
  cbn [snd]. rewrite lookup_insert_eq. unfold delivered, frames. rewrite Hsink. cbn.
  reflexivity.
Qed.

Lemma event_data_is_one_line_witness :
  exists l1 l2,
    control_free l1 = true /\ control_free l2 = true
    /\ written <$> (streams (snd (sseSend 3%nat "reload" (JObj [("t", JNum 7)])
                                         fresh_connection)) !! 3%nat)
       = Some ([] ++ [l1 +:+ LF; l2 +:+ LF +:+ LF]).
Proof.
  apply (event_data_is_one_line 3%nat "reload" (JObj [("t", JNum 7)]) fresh_connection
           {| sink := Writable; sent_headers := []; written := [] |});
    vm_compute; reflexivity.
Defined.

(** ** Further properties of the normalisation *)

Lemma or_null_not_empty (s : string) : or_null s <> Some EmptyString.
Proof. unfold or_null. destruct s; cbn; discriminate. Qed.

Lemma getDate_not_empty (p : option Property) : getDate p <> Some EmptyString.
Proof.
  unfold getDate. destruct p as [[| | |[d|]| |]|]; try discriminate.
  destruct (start d); [apply or_null_not_empty|discriminate].
Qed.

(** X13: no optional text or date field of an item is ever the empty
    string: where the record gives an empty value, the field is null. *)
Theorem optional_fields_never_empty (p : Page) :
  upper (pageToItem p) <> Some EmptyString
  /\ dependency (pageToItem p) <> Some EmptyString
  /\ early_start (pageToItem p) <> Some EmptyString
  /\ late_start (pageToItem p) <> Some EmptyString
  /\ early_finish (pageToItem p) <> Some EmptyString
  /\ late_finish (pageToItem p) <> Some EmptyString.
Proof.
  unfold pageToItem. cbn [upper dependency early_start late_start early_finish late_finish].
  repeat split; (apply or_null_not_empty || apply getDate_not_empty).
Qed.

Lemma richToText_concat (l : list RichText) : richToText (Some l) = concat_text l.
Proof.
  unfold richToText. induction l as [|v l IH]; [reflexivity|].
  cbn [map concat_text fold_right]. rewrite join_empty_cons, IH.
  unfold text_of. destruct (plain_text v); reflexivity.
Qed.

Lemma append_empty (a b : string) :
  a +:+ b = EmptyString <-> a = EmptyString /\ b = EmptyString.
Proof.
  destruct a as [|c a]; [cbn; tauto|].
  change (String c a +:+ b) with (String c (a +:+ b)). split; [discriminate|intros [[=] _]].
Qed.

Lemma concat_text_empty (l : list RichText) :
  concat_text l = EmptyString
  <-> List.Forall (fun v => plain_text v = None \/ plain_text v = Some EmptyString) l.
Proof.
  induction l as [|v l IH]; cbn [concat_text fold_right].
  - split; [constructor|reflexivity].
  - fold (concat_text l). rewrite List.Forall_cons_iff, <- IH.
    destruct (plain_text v) as [x|].
    + rewrite append_empty. split.
      * intros [-> Hl]. split; [now right|assumption].
      * intros [[Hv|Hv] Hl]; [discriminate|]. injection Hv as ->. auto.
    + split; [intros Hl; split; [now left|assumption]|intros [_ Hl]; assumption].
Qed.

Lemma trimStart_first (s : string) : not_space (first_unit (trimStart s)).
Proof.
  induction s as [|c s IH]; [exact I|].
  cbn [trimStart]. destruct (is_js_space c) eqn:E; [exact IH|exact E].
Qed.

Lemma trimEnd_last (s : string) : not_space (last_unit (trimEnd s)).
Proof.
  induction s as [|c s IH]; [exact I|].
  cbn [trimEnd]. destruct (trimEnd s) as [|d r] eqn:E.
  - destruct (is_js_space c) eqn:Ec; [exact I|exact Ec].
  - exact IH.
Qed.

Lemma trimEnd_first (s : string) :
  not_space (first_unit s) -> not_space (first_unit (trimEnd s)).
Proof.
  destruct s as [|c s]; [intros _; exact I|].
  cbn [first_unit not_space trimEnd]. intros Hc.
  destruct (trimEnd s); [rewrite Hc|]; exact Hc.
Qed.

Lemma trimStart_fixed (s : string) : not_space (first_unit s) -> trimStart s = s.
Proof. destruct s as [|c s]; [reflexivity|]. cbn. now intros ->. Qed.

Lemma trimEnd_idempotent (s : string) : trimEnd (trimEnd s) = trimEnd s.
Proof.
  induction s as [|c s IH]; [reflexivity|].
  cbn [trimEnd]. destruct (trimEnd s) as [|d r] eqn:E.
  - destruct (is_js_space c) eqn:Ec; [reflexivity|]. cbn. now rewrite Ec.
  - cbn [trimEnd]. cbn [trimEnd] in IH. rewrite IH. reflexivity.
Qed.

(** X15: the name of an item neither begins nor ends with white space, and
    trimming it again changes nothing. *)
Theorem names_have_no_outer_space (p : Page) :
  not_space (first_unit (name (pageToItem p)))
  /\ not_space (last_unit (name (pageToItem p)))
  /\ trim (name (pageToItem p)) = name (pageToItem p).
Proof.
  unfold pageToItem. cbn [name].
  generalize (match head (title_of match properties p with
                                   | Some m => m
                                   | None => ∅
                                   end) with
              | Some v => text_of v
              | None => EmptyString
              end). intros s. unfold trim.
  assert (not_space (first_unit (trimEnd (trimStart s)))) as H1
    by apply trimEnd_first, trimStart_first.
  split; [exact H1|]. split; [apply trimEnd_last|].
  rewrite (trimStart_fixed _ H1). apply trimEnd_idempotent.
Qed.

Lemma page_ids_sublist (r : QueryResponse) :
  sublist (map id (page_items r)) (map page_id (results r)).
Proof.
  unfold page_items. induction (results r) as [|p l IH]; [constructor|].
  cbn [map List.filter]. destruct (str_truthy (name (pageToItem p))).
  - cbn [map]. change (id (pageToItem p)) with (page_id p). now constructor.
  - now constructor.
Qed.

Lemma pages_ids_sublist (rs : list QueryResponse) :
  sublist (map id (concat (map page_items rs)))
          (concat (map (fun r => map page_id (results r)) rs)).
Proof.
  induction rs as [|r rs IH]; [constructor|].
  cbn [map concat]. rewrite map_app. apply sublist_app; [apply page_ids_sublist|exact IH].
Qed.

(** X16: the identifiers of the items [fetchAllItems] returns are those of
    the records the store served, in the order served, some left out: no
    item is invented, repeated or moved. *)
Theorem fetched_ids_follow_the_store
        (DB_ID : option string) (query : QueryArgs -> completion QueryResponse)
        (fuel : nat) (items : list Item) :
  fetchAllItems DB_ID query fuel = Some (Normal items) ->
  exists rs c final,
    follows DB_ID query None rs c
    /\ query (query_args DB_ID c) = Normal final
    /\ env_truthy (following final) = false
    /\ sublist (map id items)
               (concat (map (fun r => map page_id (results r)) (rs ++ [final]))).
Proof.
  intros Hrun.
  destruct (fetch_loop_inv DB_ID query fuel None None [] items (follows_nil _ _ None) Hrun)
    as (rs & c & final & Hf & Hq & Hstop & ->).
  exists rs, c, final. repeat split; try assumption. apply pages_ids_sublist.
Qed.

Lemma fetched_ids_follow_the_store_witness :
  exists rs c final,
    follows (Some "db") two_page_store None rs c
    /\ two_page_store (query_args (Some "db") c) = Normal final
    /\ env_truthy (following final) = false
    /\ sublist (map id (concat (map (page_items) [first_page; second_page])))
               (concat (map (fun r => map page_id (results r)) (rs ++ [final]))).
Proof.
  apply (fetched_ids_follow_the_store (Some "db") two_page_store 2).
  vm_compute. reflexivity.
Defined.

(** X17: a record without properties, or with none set, becomes an item
    with its identifier and nothing else, and is left out of every result. *)
Theorem missing_properties_exclude (p : Page) :
  properties p = None \/ properties p = Some ∅ ->
  pageToItem p = blank_item (page_id p)
  /\ forall r, ~ In (pageToItem p) (page_items r).
Proof.
  intros H.
  assert (pageToItem p = blank_item (page_id p)) as E.
  { unfold pageToItem, title_of. destruct H as [-> | ->]; rewrite !lookup_empty; reflexivity. }
  split; [exact E|]. intros r Hin. apply page_items_named in Hin as [_ Hn].
  apply Hn. now rewrite E.
Qed.

Lemma missing_properties_exclude_witness :
  pageToItem bare_page = blank_item (page_id bare_page)
  /\ forall r, ~ In (pageToItem bare_page) (page_items r).
Proof. apply (missing_properties_exclude bare_page). left. reflexivity. Defined.

Lemma endless_loop (DB_ID : option string)
      (query : QueryArgs -> completion QueryResponse) :
  (forall c, exists r, query (query_args DB_ID c) = Normal r
                       /\ env_truthy (following r) = true) ->
  forall fuel items c, fetch_loop DB_ID query fuel items c = None.
Proof.
  intros H fuel. induction fuel as [|fuel IH]; intros items c; [reflexivity|].
  cbn [fetch_loop]. destruct (H c) as (r & -> & ->). apply IH.
Qed.

(** X18: against a store that answers every request with a page announcing
    a further one, the fetch loop does not end: no number of requests makes
    [fetchAllItems] return, normally or otherwise. *)
Theorem endless_store_never_returns
        (DB_ID : option string) (query : QueryArgs -> completion QueryResponse) :
  (forall c, exists r, query (query_args DB_ID c) = Normal r
                       /\ env_truthy (following r) = true) ->
  forall fuel, fetchAllItems DB_ID query fuel = None
               /\ items_route DB_ID query fuel = None.
Proof.
  intros H fuel.
  assert (fetchAllItems DB_ID query fuel = None) as E
    by apply (endless_loop DB_ID query H).
  split; [exact E|]. unfold items_route. now rewrite E.
Qed.

Lemma endless_store_never_returns_witness :
  fetchAllItems None looping_store 1000 = None
  /\ items_route None looping_store 1000 = None.
Proof.
  apply (endless_store_never_returns None looping_store).
  intros c. eexists. split; reflexivity.
Defined.

(** X20: the items route reads and answers only: when the fetch ends, the
    route completes normally with status 200 or 500, and the subscriber set,
    the streams and the timers are as before; only a failed fetch adds a
    line to the console. *)
Theorem items_route_is_read_only
        (DB_ID : option string) (query : QueryArgs -> completion QueryResponse)
        (fuel : nat) (route : M Response) (s : Server) :
  items_route DB_ID query fuel = Some route ->
  (exists resp, fst (route s) = Normal resp /\ (status resp = 200 \/ status resp = 500)
                /\ (status resp = 200 -> snd (route s) = s))
  /\ sseClients (snd (route s)) = sseClients s
  /\ streams (snd (route s)) = streams s
  /\ timers (snd (route s)) = timers s
  /\ reloadTimer (snd (route s)) = reloadTimer s.
Proof.
  unfold items_route. destruct (fetchAllItems DB_ID query fuel) as [[items|e]|];
    [| |discriminate]; intros [= <-]; cbn.
  - split; [eexists; split; [reflexivity|]; split; [now left|reflexivity]|auto].
  - split; [eexists; split; [reflexivity|]; split; [now right|discriminate]|auto].
Qed.

Lemma items_route_is_read_only_witness :
  exists route,
    items_route (Some "db") two_page_store 2 = Some route
    /\ timers (snd (route live_hub)) = timers live_hub.
Proof.
  eexists. split; [vm_compute; reflexivity|].
  refine (proj1 (proj2 (proj2 (proj2
            (items_route_is_read_only (Some "db") two_page_store 2 _ live_hub _))))).
  vm_compute. reflexivity.
Defined.
(** ** What a burst writes to the subscribers *)

Lemma received_nil (st : Stream) : received [] st = st.
Proof. unfold received. destruct st as [[] h w]; cbn; now rewrite ?app_nil_r. Qed.

Lemma received_delivered (event : string) (data : json) (cs : list string) (st : Stream) :
  received cs (delivered event data st) = received (frames event data ++ cs) st.
Proof.
  unfold received, delivered. destruct (sink st) eqn:E; cbn; rewrite ?E; [|reflexivity..].
  now rewrite <- app_assoc.
Qed.

Lemma sink_delivered (event : string) (data : json) (st : Stream) :
  sink (delivered event data st) = sink st.
Proof. unfold delivered. destruct (sink st) eqn:E; cbn; congruence. Qed.

(** A sequence of reload broadcasts over subscribers none of whose writes
    raises: each stream receives the chunks of all of them, in order. *)
Lemma hub_reloads_delivers (l : list nat) (fs : list Z) :
  NoDup l ->
  forall m : gmap nat Stream,
    (forall c, In c l -> exists st, m !! c = Some st /\ sink st <> Throwing) ->
    exists m', hub_reloads l fs m = (Normal tt, m')
      /\ (forall c st, In c l -> m !! c = Some st ->
                       m' !! c = Some (received (reload_frames fs) st))
      /\ (forall c, ~ In c l -> m' !! c = m !! c).
Proof.
  intros Hnd. induction fs as [|t fs IH]; intros m Hall.
  - exists m. cbn. split; [reflexivity|]. split; [|reflexivity].
    intros c st _ H. now rewrite received_nil.
  - cbn [hub_reloads]. unfold hub_then.
    destruct (hub_broadcast_delivers l "reload" (JObj [("t", JNum t)]) m Hnd Hall)
      as (m1 & -> & Hin1 & Hout1).
    destruct (IH m1) as (m' & Hrun & Hin & Hout).
    { intros c Hc. destruct (Hall c Hc) as (st & Hst & Hs).
      exists (delivered "reload" (JObj [("t", JNum t)]) st).
      split; [now apply Hin1|]. now rewrite sink_delivered. }
    exists m'. split; [assumption|]. split.
    + intros c st Hc Hst. rewrite (Hin c _ Hc (Hin1 c st Hc Hst)).
      now rewrite received_delivered.
    + intros c Hc. now rewrite Hout, Hout1.
Qed.

(** C3: calls of [scheduleReload] at [t0], then at the times [ts], each less
    than 200 ms after the one before, leave one timer pending, due 200 ms
    after the last call, and write to no stream.  When the event loop then
    runs to any time [T] at least 200 ms after the last call (no subscriber's
    write raising), every subscriber whose stream takes writes has received
    the two chunks of exactly one event, named reload and stamped with the
    last call time plus 200; the other streams are as they were, the
    subscriber set is unchanged and no timer is left. *)
Theorem C3_burst_collapses_to_one_reload (s : Server) (t0 : Z) (ts : list Z) (T : Z) :
  timers s = [] ->
  burst 200 t0 ts ->
  last_time t0 ts + 200 <= T ->
  NoDup (sseClients s) ->
  (forall c, In c (sseClients s) ->
             exists st, streams s !! c = Some st /\ sink st <> Throwing) ->
  (exists h, timers (snd (notify_at (t0 :: ts) s)) = [(h, last_time t0 ts + 200)]
             /\ reloadTimer (snd (notify_at (t0 :: ts) s)) = Some h)
  /\ streams (snd (notify_at (t0 :: ts) s)) = streams s
  /\ exists s',
       bind (notify_at (t0 :: ts)) (fun _ => advance T) s = (Normal tt, s')
       /\ (forall c st, In c (sseClients s) -> streams s !! c = Some st ->
             streams s' !! c
             = Some (received
                       ["event: reload" +:+ LF;
                        "data: " +:+ stringify (JObj [("t", JNum (last_time t0 ts + 200))])
                                 +:+ LF +:+ LF] st))
       /\ (forall c, ~ In c (sseClients s) -> streams s' !! c = streams s !! c)
       /\ sseClients s' = sseClients s
       /\ console s' = console s
       /\ timers s' = [].
Proof.
  intros Hempty Hb HT Hnd Hall.
  destruct (burst_runs_one_callback s t0 ts T Hempty Hb HT)
    as (Hpend & Hfst & Hstr & Hcl & Hco & Htm).
  split; [exact Hpend|]. split.
  { destruct (notify_at_burst ts t0 s) as (s1 & -> & _ & _ & Hs1 & _); [|assumption|].
    - rewrite Hempty. intros x [].
    - exact Hs1. }
  set (run := bind (notify_at (t0 :: ts)) (fun _ => advance T) s) in *.
  set (d := last_time t0 ts + 200) in *.
  rewrite reload_callback_lift in Hfst, Hstr. unfold lift in Hfst, Hstr.
  cbn [fst snd streams set_streams sseClients now set_now] in Hfst, Hstr.
  destruct (hub_broadcast_delivers (sseClients s) "reload" (JObj [("t", JNum d)])
              (streams s) Hnd Hall) as (m' & Hrun & Hin & Hout).
  rewrite Hrun in Hfst, Hstr. cbn [fst snd] in Hfst, Hstr.
  exists (snd run). split; [destruct run; cbn in *; congruence|].
  rewrite Hstr. repeat split; assumption.
Qed.

Lemma C3_burst_collapses_to_one_reload_witness :
  (exists h, timers (snd (notify_at [0; 50; 100] live_hub)) = [(h, last_time 0 [50; 100] + 200)]
             /\ reloadTimer (snd (notify_at [0; 50; 100] live_hub)) = Some h)
  /\ streams (snd (notify_at [0; 50; 100] live_hub)) = streams live_hub
  /\ exists s',
       bind (notify_at [0; 50; 100]) (fun _ => advance 300) live_hub = (Normal tt, s')
       /\ (forall c st, In c (sseClients live_hub) -> streams live_hub !! c = Some st ->
             streams s' !! c
             = Some (received
                       ["event: reload" +:+ LF;
                        "data: " +:+ stringify (JObj [("t", JNum (last_time 0 [50; 100] + 200))])
                                 +:+ LF +:+ LF] st))
       /\ (forall c, ~ In c (sseClients live_hub) -> streams s' !! c = streams live_hub !! c)
       /\ sseClients s' = sseClients live_hub
       /\ console s' = console live_hub
       /\ timers s' = [].
Proof.
  apply (C3_burst_collapses_to_one_reload live_hub 0 [50; 100] 300).
  - reflexivity.
  - cbn. lia.
  - cbn. lia.
  - apply NoDup_cons. split; [|apply NoDup_singleton].
    rewrite list_elem_of_In. cbn. intuition discriminate.
  - intros c [<-|[<-|[]]]; eexists; (split; [vm_compute; reflexivity|discriminate]).
Defined.

(** X7: for calls of [scheduleReload] at any times in clock order, starting
    with no timer pending and followed by the event loop running past the
    last timer (no subscriber's write raising), every subscriber whose
    stream takes writes has received the chunks of one reload event for each
    call that no other call follows within 200 ms, stamped 200 ms after that
    call, in that order, and nothing else; the other streams are as they
    were and the subscriber set is unchanged. *)
Theorem debounce_fires_after_each_quiet_period
        (s : Server) (t0 : Z) (ts : list Z) (T : Z) :
  timers s = [] ->
  ascending t0 ts ->
  last_time t0 ts + 200 <= T ->
  NoDup (sseClients s) ->
  (forall c, In c (sseClients s) ->
             exists st, streams s !! c = Some st /\ sink st <> Throwing) ->
  exists s',
    bind (notify_at (t0 :: ts)) (fun _ => advance T) s = (Normal tt, s')
    /\ (forall c st, In c (sseClients s) -> streams s !! c = Some st ->
          streams s' !! c
          = Some (received (reload_frames (fire_times 200 (t0 :: ts))) st))
    /\ (forall c, ~ In c (sseClients s) -> streams s' !! c = streams s !! c)
    /\ sseClients s' = sseClients s.
Proof.
  intros Hempty Hasc HT Hnd Hall.
  destruct (debounce_runs_callbacks s t0 ts T Hempty Hasc HT) as (Hfst & Hstr & Hcl).
  destruct (reloads_at_lift (fire_times 200 (t0 :: ts)) s) as (R1 & R2 & _).
  rewrite R1 in Hfst. rewrite R2 in Hstr.
  destruct (hub_reloads_delivers (sseClients s) (fire_times 200 (t0 :: ts)) Hnd
              (streams s) Hall) as (m' & Hrun & Hin & Hout).
  rewrite Hrun in Hfst, Hstr. cbn [fst snd] in Hfst, Hstr.
  set (run := bind (notify_at (t0 :: ts)) (fun _ => advance T) s) in *.
  exists (snd run). split; [destruct run; cbn in *; congruence|].
  rewrite Hstr. repeat split; assumption.
Qed.

Lemma debounce_fires_after_each_quiet_period_witness :
  exists s',
    bind (notify_at [0; 50; 400; 450; 1000]) (fun _ => advance 2000) live_hub = (Normal tt, s')
    /\ (forall c st, In c (sseClients live_hub) -> streams live_hub !! c = Some st ->
          streams s' !! c
          = Some (received (reload_frames (fire_times 200 [0; 50; 400; 450; 1000])) st))
    /\ (forall c, ~ In c (sseClients live_hub) -> streams s' !! c = streams live_hub !! c)
    /\ sseClients s' = sseClients live_hub.
Proof.
  apply (debounce_fires_after_each_quiet_period live_hub 0 [50; 400; 450; 1000] 2000).
  - reflexivity.
  - cbn. lia.
  - cbn. lia.
  - apply NoDup_cons. split; [|apply NoDup_singleton].
    rewrite list_elem_of_In. cbn. intuition discriminate.
  - intros c [<-|[<-|[]]]; eexists; (split; [vm_compute; reflexivity|discriminate]).
Defined.

(** ** Trimming, and the names it gives *)

Lemma blank_append (a b : string) : blank (a +:+ b) = blank a && blank b.
Proof.
  unfold blank, chars. induction a as [|c a IH]; [reflexivity|].
  change (String c a +:+ b) with (String c (a +:+ b)).
  cbn [list_ascii_of_string forallb]. now rewrite IH, andb_assoc.
Qed.

Lemma trimStart_split (s : string) :
  exists a, s = a +:+ trimStart s /\ blank a = true.
Proof.
  induction s as [|c s (a & Ha & Hb)]; [exists EmptyString; split; reflexivity|].
  cbn [trimStart]. destruct (is_js_space c) eqn:E.
  - exists (String c a). split.
    + change (String c a +:+ trimStart s) with (String c (a +:+ trimStart s)). now rewrite <- Ha.
    + unfold blank, chars in *. cbn [list_ascii_of_string forallb]. now rewrite E.
  - exists EmptyString. split; reflexivity.
Qed.

Lemma trimEnd_split (s : string) :
  exists b, s = trimEnd s +:+ b /\ blank b = true.
Proof.
  induction s as [|c s (b & Hs & Hb)]; [exists EmptyString; split; reflexivity|].
  cbn [trimEnd]. destruct (trimEnd s) as [|d r] eqn:E.
  - change (EmptyString +:+ b) with b in Hs. subst s. destruct (is_js_space c) eqn:Ec.
    + exists (String c b). split; [reflexivity|].
      unfold blank, chars in *. cbn [list_ascii_of_string forallb]. now rewrite Ec.
    + exists b. split; [reflexivity|assumption].
  - exists b. split; [|assumption].
    change (String c (String d r) +:+ b) with (String c (String d r +:+ b)). now rewrite <- Hs.
Qed.

(** What [trim] removes is white space before and white space after. *)
Lemma trim_split (s : string) :
  exists a b, s = a +:+ trim s +:+ b /\ blank a = true /\ blank b = true.
Proof.
  destruct (trimStart_split s) as (a & Ha & Hba).
  destruct (trimEnd_split (trimStart s)) as (b & Hb & Hbb).
  exists a, b. unfold trim. split; [|auto]. now rewrite <- Hb.
Qed.

Lemma trimStart_blank (s : string) : blank s = true -> trimStart s = EmptyString.
Proof.
  unfold blank, chars. induction s as [|c s IH]; [reflexivity|].
  cbn [list_ascii_of_string forallb trimStart]. intros H.
  apply andb_true_iff in H as [-> H]. now apply IH.
Qed.

Lemma trim_empty_iff (s : string) : trim s = EmptyString <-> blank s = true.
Proof.
  split.
  - intros H. destruct (trim_split s) as (a & b & Hs & Ha & Hb).
    rewrite H in Hs. rewrite Hs, !blank_append, Ha, Hb. reflexivity.
  - intros H. unfold trim. now rewrite (trimStart_blank s H).
Qed.

Lemma trim_outer (s : string) :
  not_space (first_unit (trim s)) /\ not_space (last_unit (trim s)).
Proof.
  unfold trim. split; [apply trimEnd_first, trimStart_first|apply trimEnd_last].
Qed.

Lemma name_first_plain (p : Page) (props : gmap string Property) :
  properties p = Some props -> name (pageToItem p) = trim (first_plain (title_of props)).
Proof.
  intros H. unfold pageToItem. rewrite H. cbn [name]. unfold first_plain, text_of.
  destruct (title_of props) as [|f rest]; reflexivity.
Qed.

Lemma excluded_iff (p : Page) (r : QueryResponse) :
  In p (results r) ->
  (In (pageToItem p) (page_items r) <-> name (pageToItem p) <> EmptyString).
Proof.
  intros Hin. rewrite page_items_named. split; [tauto|].
  intros H. split; [exists p; auto|assumption].
Qed.

Lemma not_empty_iff_not_blank (s : string) : trim s <> EmptyString <-> blank s = false.
Proof.
  rewrite trim_empty_iff. destruct (blank s); split; congruence.
Qed.

(** C7 (as amended): the name of an item is the first plain text of the
    title of ['item name'], or of ['Name'] when ['item name'] carries no
    title, with the white space before and after it removed (and nothing
    else); a record is kept in the result exactly when its name is not
    empty; so a record that lacks ['item name'] and has a ['Name'] title is
    kept exactly when the first plain text of that title is not white space
    only; and every item [fetchAllItems] returns has a non-empty name. *)
Theorem C7_name_resolution_and_exclusion
        (p : Page) (props : gmap string Property) (r : QueryResponse) :
  properties p = Some props ->
  In p (results r) ->
  (forall t, get_title (props !! "item name") = Some t ->
             name (pageToItem p) = trim (first_plain t))
  /\ (forall t, get_title (props !! "item name") = None ->
                get_title (props !! "Name") = Some t ->
                name (pageToItem p) = trim (first_plain t))
  /\ (forall s, (exists a b, s = a +:+ trim s +:+ b /\ blank a = true /\ blank b = true)
                /\ not_space (first_unit (trim s)) /\ not_space (last_unit (trim s)))
  /\ (In (pageToItem p) (page_items r) <-> name (pageToItem p) <> EmptyString)
  /\ (forall t, props !! "item name" = None ->
                props !! "Name" = Some (title t) ->
                name (pageToItem p) = trim (first_plain t)
                /\ (In (pageToItem p) (page_items r) <-> blank (first_plain t) = false))
  /\ (forall DB_ID query fuel items,
        fetchAllItems DB_ID query fuel = Some (Normal items) ->
        List.Forall (fun x => name x <> EmptyString) items).
Proof.
  intros Hp Hin.
  assert (forall t, get_title (props !! "item name") = None ->
                    get_title (props !! "Name") = Some t ->
                    name (pageToItem p) = trim (first_plain t)) as Hfb.
  { intros t H1 H2. rewrite (name_first_plain p props Hp). unfold title_of.
    now rewrite H1, H2. }
  split; [|split; [assumption|split; [|split; [|split]]]].
  - intros t H. rewrite (name_first_plain p props Hp). unfold title_of. now rewrite H.
  - intros s. split; [apply trim_split|apply trim_outer].
  - now apply excluded_iff.
  - intros t H1 H2.
    assert (name (pageToItem p) = trim (first_plain t)) as Hn
      by (apply Hfb; [now rewrite H1|now rewrite H2]).
    split; [assumption|].
    rewrite (excluded_iff p r Hin), Hn. apply not_empty_iff_not_blank.
  - intros DB_ID query fuel items Hrun.
    apply (fetch_loop_named DB_ID query fuel [] None items); [constructor|exact Hrun].
Qed.

Lemma C7_name_resolution_and_exclusion_witness :
  name (pageToItem fallback_page) = trim (first_plain [fragment "  Plan  "])
  /\ (In (pageToItem fallback_page) (page_items first_page)
      <-> blank (first_plain [fragment "  Plan  "]) = false).
Proof.
  refine (proj1 (proj2 (proj2 (proj2 (proj2
            (C7_name_resolution_and_exclusion fallback_page
               {[ "Name" := title [fragment "  Plan  "]; "level" := number (Some 2) ]}
               first_page eq_refl _)))))
            [fragment "  Plan  "] _ _).
  - cbn. tauto.
  - vm_compute. reflexivity.
  - vm_compute. reflexivity.
Defined.

(** C7 (as stated) fails: an untitled record, which lacks ['item name'] and
    has the ['Name'] field, is served and is not in the result; nor is one
    whose ['Name'] is white space only. *)
Lemma C7_counterexample_untitled_fallback :
  (exists props, properties untitled_page = Some props
                 /\ props !! "item name" = None
                 /\ props !! "Name" = Some (title []))
  /\ In untitled_page (results untitled_response)
  /\ ~ In (pageToItem untitled_page) (page_items untitled_response)
  /\ (exists props, properties spaces_page = Some props
                    /\ props !! "item name" = None
                    /\ props !! "Name" = Some (title [fragment "   "]))
  /\ In spaces_page (results untitled_response)
  /\ ~ In (pageToItem spaces_page) (page_items untitled_response)
  /\ fetchAllItems None (fun _ => Normal untitled_response) 1 = Some (Normal []).
Proof.
  split; [eexists; split; [reflexivity|split; vm_compute; reflexivity]|].
  split; [now left|]. split; [vm_compute; tauto|].
  split; [eexists; split; [reflexivity|split; vm_compute; reflexivity]|].
  split; [right; now left|]. split; [vm_compute; tauto|].
  vm_compute. reflexivity.
Qed.



(** ** The challenge branch and two fields, restated *)

(** X1: with no secret configured, a body that carries a non-empty string
    as verification token is answered 200 [{ok:true, step:"verification"}];
    the console gains three lines, a heading, the token itself and the hint
    of the source, and the timers, the streams and the subscriber set are
    not touched: the handshake schedules no reload. *)
Theorem challenge_handshake
        (secret : option string) (req : Request) (s : Server) (tok : string) :
  env_truthy secret = false ->
  truthy (body req) = true ->
  member (body req) "verification_token" = Some (JStr tok) ->
  tok <> EmptyString ->
  fst (notion_webhook secret req s) = Normal challenge_response
  /\ console (snd (notion_webhook secret req s))
     = console s ++ [(LogLevel, LF +:+ "[Notion Webhook] verification_token received:");
                     (LogLevel, tok);
                     (LogLevel, "👉 이 값을 Notion Webhooks UI의 Verify 창에 붙여넣어 검증을 완료하세요.")]
  /\ timers (snd (notion_webhook secret req s)) = timers s
  /\ reloadTimer (snd (notion_webhook secret req s)) = reloadTimer s
  /\ streams (snd (notion_webhook secret req s)) = streams s
  /\ sseClients (snd (notion_webhook secret req s)) = sseClients s.
Proof.
  intros Hs Hb Hm Ht. rewrite (notion_webhook_open secret req s Hs).
  rewrite Hb, Hm. cbn [opt_truthy truthy andb].
  replace (str_truthy tok) with true by (destruct tok; [contradiction|reflexivity]).
  cbn [fst snd console set_console timers reloadTimer streams sseClients display].
  split; [reflexivity|]. split; [|auto].
  rewrite <- !app_assoc. reflexivity.
Qed.

Lemma challenge_handshake_witness :
  fst (notion_webhook None challenge_request boot) = Normal challenge_response
  /\ console (snd (notion_webhook None challenge_request boot))
     = console boot ++ [(LogLevel, LF +:+ "[Notion Webhook] verification_token received:");
                        (LogLevel, "secret_abc");
                        (LogLevel, "👉 이 값을 Notion Webhooks UI의 Verify 창에 붙여넣어 검증을 완료하세요.")].
Proof.
  destruct (challenge_handshake None challenge_request boot "secret_abc")
    as (H1 & H2 & _); [reflexivity..|discriminate|].
  split; assumption.
Defined.

(** X14: [upper] is the plain text of all fragments of the rich text, one
    after the other and untrimmed (a fragment without text adds nothing); it
    is null exactly when no fragment has a non-empty plain text. *)
Theorem upper_joins_all_fragments
        (p : Page) (props : gmap string Property) (l : list RichText) :
  properties p = Some props ->
  props !! "upper" = Some (rich_text l) ->
  (upper (pageToItem p) = None
   <-> List.Forall (fun v => plain_text v = None \/ plain_text v = Some EmptyString) l)
  /\ (concat_text l <> EmptyString -> upper (pageToItem p) = Some (concat_text l))
  /\ (forall v rest, concat_text (v :: rest)
                     = match plain_text v with
                       | Some x => x +:+ concat_text rest
                       | None => concat_text rest
                       end)
  /\ concat_text [] = EmptyString.
Proof.
  intros Hp Hu. split; [|split; [|split; reflexivity]].
  - unfold pageToItem. rewrite Hp. cbn [upper]. rewrite Hu.
    cbn [get_rich_text]. rewrite richToText_concat, <- concat_text_empty.
    unfold or_null. destruct (concat_text l); cbn; [tauto|].
    split; discriminate.
  - intros Hne. unfold pageToItem. rewrite Hp. cbn [upper]. rewrite Hu.
    cbn [get_rich_text]. rewrite richToText_concat.
    unfold or_null. destruct (concat_text l); [contradiction|reflexivity].
Qed.

Lemma upper_joins_all_fragments_witness :
  upper (pageToItem (upper_page [fragment " a"; {| plain_text := None |}; fragment "b "]))
  = Some " ab ".
Proof.
  refine (proj1 (proj2 (upper_joins_all_fragments
            (upper_page [fragment " a"; {| plain_text := None |}; fragment "b "])
            {[ "item name" := title [fragment "Task"];
               "upper" := rich_text [fragment " a"; {| plain_text := None |}; fragment "b "] ]}
            [fragment " a"; {| plain_text := None |}; fragment "b "] eq_refl _)) _).
  - vm_compute. reflexivity.
  - vm_compute. discriminate.
Defined.

(** X19: [done] is true exactly when the record has a ['Done'] property
    that is a checkbox holding true; a record without properties, without
    ['Done'], with another kind of property under that name, or with the box
    not ticked gives false. *)
Theorem done_only_when_ticked (p : Page) :
  (done (pageToItem p) = true
   <-> exists props, properties p = Some props
                     /\ props !! "Done" = Some (checkbox true))
  /\ (properties p = None -> done (pageToItem p) = false)
  /\ (forall props, properties p = Some props ->
        props !! "Done" = None \/ props !! "Done" = Some (checkbox false)
        \/ (exists t, props !! "Done" = Some (title t))
        \/ (exists n, props !! "Done" = Some (number n)) ->
        done (pageToItem p) = false).
Proof.
  unfold pageToItem. cbn [done]. destruct (properties p) as [props|].
  - split; [|split; [discriminate|]].
    + destruct (props !! "Done") as [[| | | |[|]|]|] eqn:E; cbn;
        (split; [try discriminate; intros _; exists props; auto
                |intros (q & [= <-] & Hq); congruence]).
    + intros q [= <-] [H|[H|[(t & H)|(n & H)]]]; rewrite H; reflexivity.
  - rewrite !lookup_empty. cbn.
    split; [split; [discriminate|intros (q & [=] & _)]|]. split; [reflexivity|discriminate].
Qed.
